(** * Lynkr progress listener (tools/progress-listener.py)

    A shallow embedding of the agent tracker and of the event renderer,
    and the properties of the design document that concern them.

    - [Py]           the fragment of the Python runtime the listener uses:
                     JSON values, dicts in insertion order, truthiness,
                     [str()], binary64 floats, [sorted] and [list.index];
    - [AgentTracker] the class of the same name;
    - [format_timestamp], [format_duration], [format_event];
    - [receive]      the loop of [listen_progress] over the messages. *)

From Stdlib Require Import ZArith List String Ascii Bool Lia.
From Stdlib Require Import Floats.SpecFloat DecimalString.
From Stdlib Require Import Sorting.Sorted Sorting.Permutation.
Import ListNotations.

Open Scope string_scope.
Open Scope Z_scope.

(* ===================================================================== *)
(** * The Python runtime *)
(* ===================================================================== *)

Module Py.

(** ** Exceptions and results *)

Inductive exn :=
| TypeError
| AttributeError
| OverflowError
| ValueError
| OSError
| RecursionError
| UnicodeDecodeError.

Inductive result (A : Type) :=
| Ok (a : A)
| Raise (e : exn).
Arguments Ok {A} a.
Arguments Raise {A} e.

Definition bind {A B} (r : result A) (k : A -> result B) : result B :=
  match r with
  | Ok a => k a
  | Raise e => Raise e
  end.

Notation "x <- r ;; k" := (bind r (fun x => k))
  (at level 61, r at next level, right associativity).

(** ** Strings *)

(** [sep.join(l)] *)
Fixpoint join (sep : string) (l : list string) : string :=
  match l with
  | [] => ""
  | [s] => s
  | s :: rest => s ++ sep ++ join sep rest
  end.

(** [s * n] *)
Fixpoint str_mul (s : string) (n : nat) : string :=
  match n with
  | O => ""
  | S k => s ++ str_mul s k
  end.

(** [str(z)] of an int: its decimal digits.  Where the interpreter limits
    the conversions between int and str, both [str] and [json.loads] raise
    ValueError on more than [int_max_str_digits] digits: a decoded message
    then holds [convertible] ints only, and on those [str] returns [dec]. *)
Definition dec (z : Z) : string := NilZero.string_of_int (Z.to_int z).

(** [sys.int_info.default_max_str_digits] *)
Definition int_max_str_digits : Z := 4300.

Definition convertible (z : Z) : bool := Z.abs z <? 10 ^ int_max_str_digits.

(** A str is held as its UTF-8 bytes.  A byte [10xxxxxx] continues the
    character that the byte before it starts or continues. *)
Definition continuation (c : ascii) : bool :=
  match c with
  | Ascii _ _ _ _ _ _ false true => true
  | _ => false
  end.

(** The characters of [s], last first, after the bytes that continue the
    character before them. *)
Fixpoint split_chars (s : string) : string * list string :=
  match s with
  | EmptyString => ("", [])
  | String c rest =>
      let '(pending, whole) := split_chars rest in
      if continuation c then (String c pending, whole)
      else ("", String c pending :: whole)
  end.

(** the characters of a string, as [for c in s] enumerates them *)
Definition chars (s : string) : list string :=
  let '(pending, whole) := split_chars s in
  match pending with
  | EmptyString => whole
  | _ => pending :: whole
  end.

(** [s[:n]] *)
Definition slice_to (n : nat) (s : string) : string :=
  String.concat "" (firstn n (chars s)).

Definition newline : string := String "010" "".

(** ** binary64 floats

    Python floats are IEEE 754 binary64 numbers; the operations are the
    Standard Library's executable specification at [prec = 53],
    [emax = 1024]. *)

Definition float := spec_float.
Definition prec : Z := 53.
Definition emax : Z := 1024.

(** [float(z)] *)
Definition float_of_Z (z : Z) : float := binary_normalize prec emax z 0 false.

Definition fdiv (x y : float) : float := SFdiv prec emax x y.
Definition fmul (x y : float) : float := SFmul prec emax x y.
Definition flt (x y : float) : bool := SFltb x y.

(** An int as the exact ratio operand of [int / int]. *)
Definition exact_of_Z (z : Z) : float :=
  match z with
  | Z0 => S754_zero false
  | Zpos p => S754_finite false p 0
  | Zneg p => S754_finite true p 0
  end.

Definition is_infinity (x : float) : bool :=
  match x with
  | S754_infinity _ => true
  | _ => false
  end.

(** [a / b] on ints, for [b <> 0]: the quotient of the two integers rounded
    once to the nearest float, ties to even; OverflowError ("integer
    division result too large for a float") beyond the float range. *)
Definition int_truediv (a b : Z) : result float :=
  let q := SFdiv prec emax (exact_of_Z a) (exact_of_Z b) in
  if is_infinity q then Raise OverflowError else Ok q.

(** The integer nearest to [10 * m * 2^e], ties to even. *)
Definition tenths (m : positive) (e : Z) : Z :=
  match e with
  | Zneg p =>
      let den := 2 ^ Zpos p in
      let q := (10 * Zpos m) / den in
      let r := (10 * Zpos m) mod den in
      match 2 * r ?= den with
      | Lt => q
      | Gt => q + 1
      | Eq => if Z.even q then q else q + 1
      end
  | _ => 10 * Zpos m * 2 ^ e
  end.

(** The decimal rendering of a number of tenths: ["12.3"] for 123. *)
Definition one_decimal (n : Z) : string := dec (n / 10) ++ "." ++ dec (n mod 10).

(** [f"{x:.1f}"]: the exact value of the float, rounded to one decimal
    place, ties to even. *)
Definition fmt1 (x : float) : string :=
  match x with
  | S754_nan => "nan"
  | S754_infinity s => if s then "-inf" else "inf"
  | S754_zero s => if s then "-0.0" else "0.0"
  | S754_finite s m e => (if s then "-" else "") ++ one_decimal (tenths m e)
  end.

(** What the rounding of the Standard Library's [binary_round_aux] does to
    a mantissa [mx >= 0] at exponent [ex]: cut to [m1] at [e1], round to
    [m2], cut again to [m3] at [e3]. *)
Definition rounds (mx ex m3 e3 : Z) : Prop :=
  exists m1 m2 e1,
    e1 = Z.max ex (fexp prec emax (Zdigits2 mx + ex)) /\
    m1 = mx / 2 ^ (e1 - ex) /\
    Zdigits2 m1 + e1 <= Z.max (Zdigits2 mx + ex) e1 /\
    m1 <= m2 <= m1 + 1 /\
    e3 = Z.max e1 (fexp prec emax (Zdigits2 m2 + e1)) /\
    m3 = m2 / 2 ^ (e3 - e1).

(** ** JSON values, as [json.loads] returns them *)

#[local] Unset Elimination Schemes.
Inductive json :=
| JNull
| JBool (b : bool)
| JInt (z : Z)
| JFloat (f : float)
| JStr (s : string)
| JList (l : list json)
| JDict (d : list (string * json)).
#[local] Set Elimination Schemes.

(** The ints of [v] are within the conversion limit: [v] is a value that
    [json.loads] returns whether the interpreter has the limit or not. *)
Fixpoint loadable (v : json) : bool :=
  match v with
  | JInt z => convertible z
  | JList l => forallb loadable l
  | JDict d => forallb (fun '(_, x) => loadable x) d
  | _ => true
  end.

(** [bool(v)] *)
Definition truthy (v : json) : bool :=
  match v with
  | JNull => false
  | JBool b => b
  | JInt z => negb (z =? 0)
  | JFloat (S754_zero _) => false
  | JFloat _ => true
  | JStr s => negb (s =? "")%string
  | JList l => match l with [] => false | _ => true end
  | JDict d => match d with [] => false | _ => true end
  end.

(** What the embedding takes from the interpreter as given: [repr] of a
    float (the shortest decimal that reads back as the same float), [repr]
    of a str (the quoted, escaped literal), and the local wall clock
    [datetime.fromtimestamp(x).strftime('%H:%M:%S')], which depends on the
    time zone of the host and raises outside the range the platform
    supports (ValueError, OverflowError or OSError). *)
Class Runtime := {
  float_repr : float -> string;
  str_repr : string -> string;
  local_hms : float -> result string
}.

Section Str.
Context {R : Runtime}.

(** [repr(v)] *)
Fixpoint py_repr (v : json) : string :=
  match v with
  | JNull => "None"
  | JBool b => if b then "True" else "False"
  | JInt z => dec z
  | JFloat f => float_repr f
  | JStr s => str_repr s
  | JList l => "[" ++ join ", " (map py_repr l) ++ "]"
  | JDict d =>
      "{" ++ join ", " (map (fun '(k, x) => str_repr k ++ ": " ++ py_repr x) d) ++ "}"
  end.

(** [str(v)], which is what an f-string field [{v}] renders *)
Definition py_str (v : json) : string :=
  match v with
  | JStr s => s
  | _ => py_repr v
  end.

End Str.

(** ** Numbers *)

(** [v < n] for an int literal [n] that a float holds exactly; [None] when
    the comparison raises TypeError. *)
Definition py_lt (v : json) (n : Z) : option bool :=
  match v with
  | JInt z => Some (z <? n)
  | JBool b => Some (Z.b2z b <? n)
  | JFloat f => Some (flt f (float_of_Z n))
  | _ => None
  end.

(** [v / n] for a non-zero int literal [n] *)
Definition py_truediv (v : json) (n : Z) : result float :=
  match v with
  | JInt z => int_truediv z n
  | JBool b => int_truediv (Z.b2z b) n
  | JFloat f => Ok (fdiv f (float_of_Z n))
  | _ => Raise TypeError
  end.

(** ** Dicts, in insertion order *)

Section Dict.
Context {V : Type}.

(** [d.get(k)] *)
Fixpoint get (d : list (string * V)) (k : string) : option V :=
  match d with
  | [] => None
  | (k', v) :: rest => if (k' =? k)%string then Some v else get rest k
  end.

(** [k in d] *)
Definition mem (d : list (string * V)) (k : string) : bool :=
  match get d k with
  | Some _ => true
  | None => false
  end.

(** [d[k] = v]: a known key keeps its place, a new one goes last *)
Fixpoint set (d : list (string * V)) (k : string) (v : V) : list (string * V) :=
  match d with
  | [] => [(k, v)]
  | (k', v') :: rest =>
      if (k' =? k)%string then (k, v) :: rest else (k', v') :: set rest k v
  end.

(** [d.keys()] *)
Definition keys (d : list (string * V)) : list string := map fst d.

End Dict.

(** [d.get(k, default)] *)
Definition get_default (d : list (string * json)) (k : string) (default : json) : json :=
  match get d k with
  | Some v => v
  | None => default
  end.

(** ** [sorted(l, key=...)] and [l.index(x)] *)

Section Sorted.
Context {A K : Type}.
Variable key : A -> K.
Variable lt : K -> K -> bool.

(** [x] goes before the first element whose key is not smaller than its
    own, so elements with equal keys keep their order. *)
Fixpoint insert_sorted (x : A) (l : list A) : list A :=
  match l with
  | [] => [x]
  | y :: rest =>
      if lt (key y) (key x) then y :: insert_sorted x rest else x :: y :: rest
  end.

(** [sorted] is stable: this is the one permutation it can return when
    [lt] orders the keys. *)
Definition sorted (l : list A) : list A := fold_right insert_sorted [] l.

End Sorted.

(** [l.index(x)]; [None] for ValueError *)
Fixpoint index (l : list string) (x : string) : option Z :=
  match l with
  | [] => None
  | y :: rest =>
      if (y =? x)%string then Some 0
      else match index rest x with
           | Some i => Some (i + 1)
           | None => None
           end
  end.

End Py.

Import Py.

(* ===================================================================== *)
(** * ANSI color codes *)
(* ===================================================================== *)

(** [class Colors].  The attributes are class variables that [main] blanks
    when color is disabled, so the renderer reads them from a record. *)
Record Colors := {
  HEADER : string;
  OKBLUE : string;
  OKCYAN : string;
  OKGREEN : string;
  WARNING : string;
  FAIL : string;
  ENDC : string;
  BOLD : string;
  UNDERLINE : string
}.

Definition esc (code : string) : string := String "027" ("[" ++ code).

Definition ansi : Colors := {|
  HEADER := esc "95m";
  OKBLUE := esc "94m";
  OKCYAN := esc "96m";
  OKGREEN := esc "92m";
  WARNING := esc "93m";
  FAIL := esc "91m";
  ENDC := esc "0m";
  BOLD := esc "1m";
  UNDERLINE := esc "4m"
|}.

(** [--no-color], or an output that is not a terminal *)
Definition no_color : Colors := {|
  HEADER := ""; OKBLUE := ""; OKCYAN := ""; OKGREEN := ""; WARNING := "";
  FAIL := ""; ENDC := ""; BOLD := ""; UNDERLINE := ""
|}.

(* ===================================================================== *)
(** * class AgentTracker *)
(* ===================================================================== *)

Module AgentTracker.

(** A value of [self.agents]: [{parentId, startTime, depth}]. *)
Record agent := {
  parentId : option string;
  startTime : float;
  depth : nat
}.

Record t := {
  agents : list (string * agent);                   (* agentId -> record *)
  parent_children : list (string * list string)     (* parentId -> [childIds] *)
}.

(** [__init__] *)
Definition init : t := {| agents := []; parent_children := [] |}.

(** [if parent_id:] on an optional str *)
Definition given (parent_id : option string) : bool :=
  match parent_id with
  | Some p => negb (p =? "")%string
  | None => false
  end.

(** [start_agent(agent_id, parent_id=None)]; [now] is what [time.time()]
    returns on line 53. *)
Definition start_agent (self : t) (agent_id : string) (parent_id : option string)
    (now : float) : t :=
  let depth :=
    match parent_id with
    | Some p =>
        if given parent_id then
          match get (agents self) p with
          | Some parent => (depth parent + 1)%nat
          | None => O
          end
        else O
    | None => O
    end in
  let agents' :=
    set (agents self) agent_id
        {| parentId := parent_id; startTime := now; depth := depth |} in
  let parent_children' :=
    match parent_id with
    | Some p =>
        if given parent_id then
          let pc := if mem (parent_children self) p
                    then parent_children self
                    else set (parent_children self) p [] in
          match get pc p with
          | Some children => set pc p (children ++ [agent_id])%list
          | None => pc
          end
        else parent_children self
    | None => parent_children self
    end in
  {| agents := agents'; parent_children := parent_children' |}.

(** The sort key of line 82, [self.agents[a]['startTime']].  [sorted] only
    applies it to keys of [self.agents]; the other case is the KeyError
    that cannot happen. *)
Definition start_of (self : t) (a : string) : float :=
  match get (agents self) a with
  | Some r => startTime r
  | None => S754_nan
  end.

(** [_get_agent_num(agent_id)] *)
Definition _get_agent_num (self : t) (agent_id : string) : Z :=
  let sorted_agents := sorted (start_of self) flt (keys (agents self)) in
  match index sorted_agents agent_id with
  | Some i => i + 1
  | None => 0
  end.

(** [get_agent_prefix(agent_id)] *)
Definition get_agent_prefix (self : t) (agent_id : string) : string :=
  match get (agents self) agent_id with
  | None => "[Agent]"
  | Some agent =>
      match parentId agent with
      | Some parent_id =>
          if given (parentId agent) then
            let parent_num := _get_agent_num self parent_id in
            let child_num := _get_agent_num self agent_id in
            "[Agent #" ++ dec child_num ++ " → #" ++ dec parent_num ++ "]"
          else
            "[Agent #" ++ dec (_get_agent_num self agent_id) ++ "]"
      | None =>
          "[Agent #" ++ dec (_get_agent_num self agent_id) ++ "]"
      end
  end.

(** [get_indent(agent_id)] *)
Definition get_indent (self : t) (agent_id : string) : string :=
  match get (agents self) agent_id with
  | None => ""
  | Some agent => str_mul "  " (depth agent)
  end.

End AgentTracker.

(* ===================================================================== *)
(** * The renderer *)
(* ===================================================================== *)

(** What a JSON value is as a key of [agent_tracker.agents].  The tracker of
    the embedding is keyed by strings.  A non-empty list or dict is not
    hashable.  A non-zero number or [true] is a key of another type
    ([Foreign]): it is equal to no string, so looking it up finds nothing,
    and registering it is outside the embedding. *)
Inductive key_arg :=
| Absent
| Key (s : string)
| Unhashable
| Foreign.

(** The result of a step that can raise or leave the embedding.  After
    [Unmodelled] nothing is known of the tracker of the program: the
    embedding stops there. *)
Inductive attempt (A : Type) :=
| Done (a : A)
| Raised (e : exn)
| Unmodelled.
Arguments Done {A} a.
Arguments Raised {A} e.
Arguments Unmodelled {A}.

Section Renderer.
Context {R : Runtime}.
Variable C : Colors.

(** An event is the dict [json.loads] made of one message. *)
Definition event := list (string * json).

(** [format_timestamp(timestamp_ms)] *)
Definition format_timestamp (timestamp_ms : json) : result string :=
  seconds <- py_truediv timestamp_ms 1000 ;;
  local_hms seconds.

(** [format_duration(ms)] *)
Definition format_duration (ms : json) : result string :=
  match py_lt ms 1000 with
  | None => Raise TypeError
  | Some true => Ok (py_str ms ++ "ms")
  | Some false =>
      match py_lt ms 60000 with
      | None => Raise TypeError
      | Some true => x <- py_truediv ms 1000 ;; Ok (fmt1 x ++ "s")
      | Some false => x <- py_truediv ms 60000 ;; Ok (fmt1 x ++ "m")
      end
  end.

(** [event_type == name] *)
Definition is_type (event_type : json) (name : string) : bool :=
  match event_type with
  | JStr s => (s =? name)%string
  | _ => false
  end.

(** [', '.join(features)] *)
Definition join_features (features : json) : result string :=
  match features with
  | JList l =>
      (fix strs (l : list json) (acc : list string) : result string :=
         match l with
         | [] => Ok (join ", " (rev acc))
         | JStr s :: rest => strs rest (s :: acc)
         | _ => Raise TypeError
         end) l []
  | JStr s => Ok (join ", " (chars s))
  | JDict d => Ok (join ", " (keys d))
  | _ => Raise TypeError
  end.

(** [v] as a key of [agent_tracker.agents] *)
Definition as_key (v : json) : key_arg :=
  match v with
  | JStr s => Key s
  | JList (_ :: _) | JDict (_ :: _) => Unhashable
  | _ => if truthy v then Foreign else Absent
  end.

Definition parent_arg (k : key_arg) : option string :=
  match k with
  | Key s => Some s
  | _ => None
  end.

(** Lines 126 to 133: registration and the agent's prefix and indent.
    An agent-started event that would register a [Foreign] key, or an agent
    under a [Foreign] parent, is [Unmodelled]; on another event a [Foreign]
    agent id is an unknown agent. *)
Definition agent_context (event_type agent_id parent_agent_id : json)
    (now : float) (tracker : AgentTracker.t)
  : AgentTracker.t * attempt (string * string) :=
  if is_type event_type "agent_loop_started" && truthy agent_id then
    match as_key parent_agent_id, as_key agent_id with
    | Unhashable, _ => (tracker, Raised TypeError)
    | _, Unhashable => (tracker, Raised TypeError)
    | Foreign, _ => (tracker, Unmodelled)
    | _, Foreign => (tracker, Unmodelled)
    | _, Absent => (tracker, Done ("", ""))
    | parent, Key a =>
        let tracker' := AgentTracker.start_agent tracker a (parent_arg parent) now in
        (tracker', Done (AgentTracker.get_agent_prefix tracker' a,
                         AgentTracker.get_indent tracker' a))
    end
  else if truthy agent_id then
    match as_key agent_id with
    | Key a => (tracker, Done (AgentTracker.get_agent_prefix tracker a,
                               AgentTracker.get_indent tracker a))
    | Unhashable => (tracker, Raised TypeError)
    | Foreign => (tracker, Done ("[Agent]", ""))
    | Absent => (tracker, Done ("", ""))
    end
  else (tracker, Done ("", "")).

(** [output.append(line)] *)
Definition append (output : list string) (line : string) : list string :=
  (output ++ [line])%list.

(** [event.get(k)] *)
Definition field (ev : event) (k : string) : json := get_default ev k JNull.

(** The branch of an unknown event type, lines 216 to 220. *)
Definition dump (ev : event) : list string :=
  map (fun '(key, value) => "  " ++ key ++ ": " ++ py_str value)
      (filter (fun '(key, _) =>
                 negb ((key =? "type")%string || (key =? "timestamp")%string))
              ev).

(** Lines 135 to 220: the lines of [output]. *)
Definition render (ev : event) (event_type : json)
    (timestamp indent agent_prefix : string) : result (list string) :=
  if is_type event_type "connected" then
    let output :=
      [ OKGREEN C ++ "[" ++ timestamp ++ "] Connected to Lynkr progress server" ++ ENDC C;
        "  Client ID: " ++ py_str (field ev "clientId") ] in
    let server_info := get_default ev "serverInfo" (JDict []) in
    if truthy server_info then
      match server_info with
      | JDict d =>
          features <- join_features (get_default d "features" (JList [])) ;;
          Ok (append output ("  Features: " ++ features))
      | _ => Raise AttributeError
      end
    else Ok output
  else if is_type event_type "ready" then
    Ok [ OKCYAN C ++ "[" ++ timestamp ++ "] "
         ++ py_str (get_default ev "message" (JStr "Ready")) ++ ENDC C ]
  else if is_type event_type "agent_loop_started" then
    max_duration <- format_duration (get_default ev "maxDurationMs" (JInt 0)) ;;
    Ok [ indent ++ HEADER C ++ "[" ++ timestamp ++ "] " ++ agent_prefix ++ " "
           ++ BOLD C ++ "Started" ++ ENDC C;
         indent ++ "  Model: " ++ OKCYAN C ++ py_str (field ev "model") ++ ENDC C;
         indent ++ "  Provider: " ++ py_str (field ev "providerType");
         indent ++ "  Max steps: " ++ py_str (field ev "maxSteps");
         indent ++ "  Max duration: " ++ max_duration ]
  else if is_type event_type "agent_loop_step_started" then
    let step := get_default ev "step" (JInt 0) in
    let max_steps := get_default ev "maxSteps" (JInt 0) in
    let progress_pct := get_default ev "progress" (JInt 0) in
    Ok [ indent ++ OKBLUE C ++ "[" ++ timestamp ++ "] " ++ agent_prefix ++ " Step "
           ++ BOLD C ++ py_str step ++ "/" ++ py_str max_steps ++ ENDC C
           ++ " (" ++ py_str progress_pct ++ "%)" ]
  else if is_type event_type "model_invocation_started" then
    let output :=
      [ indent ++ OKCYAN C ++ "[" ++ timestamp ++ "] " ++ agent_prefix
           ++ " Calling model..." ++ ENDC C;
        indent ++ "  Model: " ++ py_str (field ev "model");
        indent ++ "  Provider: " ++ py_str (field ev "providerType") ] in
    let estimated := field ev "estimatedTokens" in
    if truthy estimated then
      Ok (append output (indent ++ "  Estimated tokens: ~" ++ py_str estimated))
    else Ok output
  else if is_type event_type "model_invocation_completed" then
    let duration := get_default ev "durationMs" (JInt 0) in
    let input_tokens := get_default ev "inputTokens" (JInt 0) in
    let output_tokens := get_default ev "outputTokens" (JInt 0) in
    duration_text <- format_duration duration ;;
    Ok [ indent ++ OKGREEN C ++ "[" ++ timestamp ++ "] " ++ agent_prefix
           ++ " Model response received" ++ ENDC C;
         indent ++ "  Duration: " ++ duration_text;
         indent ++ "  Tokens: " ++ py_str input_tokens ++ " in → "
           ++ py_str output_tokens ++ " out" ]
  else if is_type event_type "tool_execution_started" then
    let tool_name := get_default ev "toolName" (JStr "unknown") in
    let tool_id := get_default ev "toolId" (JStr "") in
    let request_preview := field ev "requestPreview" in
    let output :=
      [ indent ++ WARNING C ++ "[" ++ timestamp ++ "] " ++ agent_prefix
          ++ " Executing tool: " ++ BOLD C ++ py_str tool_name ++ ENDC C ] in
    let output :=
      if truthy request_preview
      then append output (indent ++ "  Request: " ++ py_str request_preview)
      else output in
    let output :=
      if truthy tool_id
      then append output (indent ++ "  ID: " ++ py_str tool_id)
      else output in
    Ok output
  else if is_type event_type "tool_execution_completed" then
    let tool_name := get_default ev "toolName" (JStr "unknown") in
    let ok := get_default ev "ok" (JBool true) in
    let duration := get_default ev "durationMs" (JInt 0) in
    let response_preview := field ev "responsePreview" in
    let status :=
      if truthy ok then OKGREEN C ++ "OK" ++ ENDC C
      else FAIL C ++ "FAILED" ++ ENDC C in
    let output :=
      [ indent ++ OKCYAN C ++ "[" ++ timestamp ++ "] " ++ agent_prefix ++ " Tool "
          ++ py_str tool_name ++ ": " ++ status ++ ENDC C ] in
    duration_text <- format_duration duration ;;
    let output := append output (indent ++ "  Duration: " ++ duration_text) in
    if truthy response_preview
    then Ok (append output (indent ++ "  Response: " ++ py_str response_preview))
    else Ok output
  else if is_type event_type "agent_loop_completed" then
    let duration := get_default ev "durationMs" (JInt 0) in
    let steps := get_default ev "steps" (JInt 0) in
    let tool_calls := get_default ev "toolCallsExecuted" (JInt 0) in
    let reason := get_default ev "terminationReason" (JStr "completion") in
    duration_text <- format_duration duration ;;
    Ok [ indent ++ OKGREEN C ++ BOLD C ++ "[" ++ timestamp ++ "] " ++ agent_prefix
           ++ " Completed" ++ ENDC C;
         indent ++ "  Duration: " ++ duration_text;
         indent ++ "  Steps: " ++ py_str steps;
         indent ++ "  Tool calls: " ++ py_str tool_calls;
         indent ++ "  Reason: " ++ py_str reason ]
  else if is_type event_type "error" then
    let error_type := get_default ev "errorType" (JStr "unknown") in
    let message := get_default ev "errorMessage" (JStr "No message") in
    Ok [ FAIL C ++ BOLD C ++ "[" ++ timestamp ++ "] ERROR: " ++ py_str error_type ++ ENDC C;
         "  " ++ py_str message ]
  else if is_type event_type "server:shutdown" then
    Ok [ WARNING C ++ "[" ++ timestamp ++ "] Server shutting down" ++ ENDC C ]
  else
    Ok (( OKCYAN C ++ "[" ++ timestamp ++ "] " ++ py_str event_type ++ ENDC C )
        :: dump ev).

(** [event.get('type', 'unknown')] *)
Definition event_type (ev : event) : json := get_default ev "type" (JStr "unknown").

(** [event.get('timestamp', time.time() * 1000)] *)
Definition event_timestamp (now : float) (ev : event) : json :=
  get_default ev "timestamp" (JFloat (fmul now (float_of_Z 1000))).

(** ['\n'.join(output)], or the exception on the way to it *)
Definition finish (output : result (list string)) : attempt string :=
  match output with
  | Ok lines => Done (join newline lines)
  | Raise e => Raised e
  end.

(** [format_event(event)], with the global [agent_tracker] passed in and
    returned.  [now] is the reading of [time.time()] on line 118, [now']
    the one [start_agent] takes on line 53.  An exception leaves the tracker
    as it is at that point. *)
Definition format_event (now now' : float) (ev : event) (tracker : AgentTracker.t)
  : AgentTracker.t * attempt string :=
  match format_timestamp (event_timestamp now ev) with
  | Raise e => (tracker, Raised e)
  | Ok timestamp =>
      let agent_id := field ev "agentId" in
      let parent_agent_id := field ev "parentAgentId" in
      match agent_context (event_type ev) agent_id parent_agent_id now' tracker with
      | (tracker', Done (agent_prefix, indent)) =>
          (tracker', finish (render ev (event_type ev) timestamp indent agent_prefix))
      | (tracker', Raised e) => (tracker', Raised e)
      | (tracker', Unmodelled) => (tracker', Unmodelled)
      end
  end.

(** ** Events as the design document describes them *)

(** The discriminants [format_event] knows. *)
Definition known_types : list string :=
  [ "connected"; "ready"; "agent_loop_started"; "agent_loop_step_started";
    "model_invocation_started"; "model_invocation_completed";
    "tool_execution_started"; "tool_execution_completed";
    "agent_loop_completed"; "error"; "server:shutdown" ].

Definition recognized (event_type : json) : bool :=
  existsb (is_type event_type) known_types.

(** An id field that is absent, null, empty or a string. *)
Definition string_or_absent (v : json) : bool :=
  match as_key v with
  | Absent | Key _ => true
  | Unhashable | Foreign => false
  end.

(** A duration field that holds a number: an int below [2^1024], a float
    or a bool. *)
Definition duration_ok (v : json) : bool :=
  match v with
  | JInt z => z <? 2 ^ 1024
  | JBool _ | JFloat _ => true
  | _ => false
  end.

Definition is_str (v : json) : bool :=
  match v with
  | JStr _ => true
  | _ => false
  end.

(** A feature list that [', '.join] accepts. *)
Definition features_ok (v : json) : bool :=
  match v with
  | JList l => forallb is_str l
  | JStr _ | JDict _ => true
  | _ => false
  end.

(** A [serverInfo] that holds nothing, or a dict whose [features], if any,
    can be joined. *)
Definition server_info_ok (v : json) : bool :=
  match v with
  | JDict d => features_ok (get_default d "features" (JList []))
  | _ => negb (truthy v)
  end.

(** The fields of an event that are present hold values of their types. *)
Definition well_typed (ev : event) : bool :=
  string_or_absent (field ev "agentId")
  && string_or_absent (field ev "parentAgentId")
  && duration_ok (get_default ev "durationMs" (JInt 0))
  && duration_ok (get_default ev "maxDurationMs" (JInt 0))
  && server_info_ok (get_default ev "serverInfo" (JDict [])).

(** The text a field is to show: that of its value, or [fallback] when the
    event lacks the field. *)
Definition shown (ev : event) (k fallback : string) : string :=
  match get ev k with
  | Some v => py_str v
  | None => fallback
  end.

(** The text a duration is to show: zero milliseconds when the event lacks
    the field. *)
Definition duration_shown (ev : event) (k : string) : result string :=
  match get ev k with
  | Some v => format_duration v
  | None => Ok "0ms"
  end.

(** The line of an optional field: none when the event lacks the field, or
    holds a value that counts as false. *)
Definition optional_line (ev : event) (k indent label : string) : list string :=
  match get ev k with
  | Some v => if truthy v then [indent ++ label ++ py_str v] else []
  | None => []
  end.

(** The status word of a tool: success unless the event says otherwise. *)
Definition status_shown (ev : event) : string :=
  match get ev "ok" with
  | Some v => if truthy v then OKGREEN C ++ "OK" ++ ENDC C
              else FAIL C ++ "FAILED" ++ ENDC C
  | None => OKGREEN C ++ "OK" ++ ENDC C
  end.

End Renderer.

(* ===================================================================== *)
(** * Runs of the tracker, and what the design document expects of them *)
(* ===================================================================== *)

Module Lineage.
Import AgentTracker.

(** One call [start_agent(agent_id, parent_id)], with the reading of the
    clock it takes. *)
Record call := {
  call_id : string;
  call_parent : option string;
  call_now : float
}.

Definition register (tracker : t) (c : call) : t :=
  start_agent tracker (call_id c) (call_parent c) (call_now c).

(** The tracker after a sequence of calls. *)
Definition run (calls : list call) (tracker : t) : t :=
  fold_left register calls tracker.

(** What [time.time()] returns: a positive finite float. *)
Definition reading (x : float) : bool :=
  match x with
  | S754_finite false _ _ => true
  | _ => false
  end.

Definition same_time (x y : float) : bool := negb (flt x y) && negb (flt y x).

(** The number of elements of [l] that satisfy [f], as an int. *)
Definition count {A} (f : A -> bool) (l : list A) : Z :=
  Z.of_nat (List.length (filter f l)).

(** The call that registered [a]. *)
Definition registration (calls : list call) (a : string) : option call :=
  find (fun c => (call_id c =? a)%string) calls.

(** The calls made before [a] was registered. *)
Fixpoint registered_before (calls : list call) (a : string) : list call :=
  match calls with
  | [] => []
  | c :: rest =>
      if (call_id c =? a)%string then [] else c :: registered_before rest a
  end.

(** The ordinal of the design document: the 1-based rank of the agent's
    start time among the registered agents, 0 for an unknown id.  Agents
    with the same start time rank in the order of their registration. *)
Definition ordinal (calls : list call) (a : string) : Z :=
  match registration calls a with
  | None => 0
  | Some c =>
      1 + count (fun c' => flt (call_now c') (call_now c)) calls
        + count (fun c' => same_time (call_now c') (call_now c))
                (registered_before calls a)
  end.

(** The tag of the design document: a placeholder for an unknown agent,
    one ordinal for an agent without parent, "child → parent" otherwise. *)
Definition tag (calls : list call) (a : string) : string :=
  match registration calls a with
  | None => "[Agent]"
  | Some c =>
      match call_parent c with
      | Some p =>
          if given (call_parent c)
          then "[Agent #" ++ dec (ordinal calls a) ++ " → #" ++ dec (ordinal calls p) ++ "]"
          else "[Agent #" ++ dec (ordinal calls a) ++ "]"
      | None => "[Agent #" ++ dec (ordinal calls a) ++ "]"
      end
  end.

(** The depth of the design document: [parent.depth + 1] if a parent id is
    supplied and known to [tracker], else 0. *)
Definition depth_at (tracker : t) (parent_id : option string) : nat :=
  match parent_id with
  | Some p =>
      if given parent_id then
        match get (agents tracker) p with
        | Some parent => S (depth parent)
        | None => O
        end
      else O
  | None => O
  end.

(** The depth and the start time [tracker] holds for [a]. *)
Definition depth_of (tracker : t) (a : string) : option nat :=
  option_map depth (get (agents tracker) a).

Definition startTime_of (tracker : t) (a : string) : option float :=
  option_map startTime (get (agents tracker) a).

(** A string of spaces only. *)
Definition blank (s : string) : Prop :=
  forall i c, String.get i s = Some c -> c = " "%char.

(** The ids that come before [a] in a list of ids. *)
Fixpoint ids_before (l : list string) (a : string) : list string :=
  match l with
  | [] => []
  | b :: rest => if (b =? a)%string then [] else b :: ids_before rest a
  end.

(** The sort keys of the ids are clock readings; the ids are in the order
    of their keys. *)
Definition good (kf : string -> float) (l : list string) : Prop :=
  Forall (fun b => reading (kf b) = true) l.

Definition ordered (kf : string -> float) (l : list string) : Prop :=
  StronglySorted (fun a b => flt (kf b) (kf a) = false) l.

End Lineage.

(* ===================================================================== *)
(** * A runtime to evaluate the renderer with *)
(* ===================================================================== *)

(** The integer nearest to [k * m * 2^e], ties to even. *)
Definition scaled (k : Z) (m : positive) (e : Z) : Z :=
  match e with
  | Zneg p =>
      let den := 2 ^ Zpos p in
      let q := (k * Zpos m) / den in
      let r := (k * Zpos m) mod den in
      match 2 * r ?= den with
      | Lt => q
      | Gt => q + 1
      | Eq => if Z.even q then q else q + 1
      end
  | _ => k * Zpos m * 2 ^ e
  end.

Definition two_digits (n : Z) : string :=
  if n <? 10 then "0" ++ dec n else dec n.

(** The wall clock of a host whose time zone is UTC and whose [time_t] has
    64 bits: the instant is rounded to microseconds, as
    [datetime.fromtimestamp] does.  An instant whose seconds do not fit
    [time_t] is an OverflowError, one whose year does not fit the [int] of
    [struct tm] an OSError, and one outside the years 1 to 9999, or on the
    first day of year 1 (the conversion looks at the day before), a
    ValueError. *)
Definition utc_hms (x : float) : result string :=
  match x with
  | S754_nan => Raise ValueError
  | S754_infinity _ => Raise OverflowError
  | S754_zero _ => Ok "00:00:00"
  | S754_finite sign m e =>
      let us := scaled 1000000 m e in
      let s := (if sign then - us else us) / 1000000 in
      if (s <? - 2 ^ 63) || (2 ^ 63 <=? s) then Raise OverflowError
      else if (s <? -67768040609740800) || (67767976233532800 <=? s) then Raise OSError
      else if (s <? -62135510400) || (253402300800 <=? s) then Raise ValueError
      else
        Ok (two_digits (s / 3600 mod 24) ++ ":" ++ two_digits (s / 60 mod 60)
            ++ ":" ++ two_digits (s mod 60))
  end.

(** [repr] on the values the examples use: strings without quotes,
    backslashes or control characters, and floats that are a whole number
    of tenths. *)
#[local] Instance utc : Runtime := {|
  float_repr := fmt1;
  str_repr := fun s => "'" ++ s ++ "'";
  local_hms := utc_hms
|}.

(* ===================================================================== *)
(** * Sample data *)
(* ===================================================================== *)

Module Sample.
Import AgentTracker Lineage.

(** The clock, [s] seconds after the epoch. *)
Definition at_second (s : Z) : float := float_of_Z s.

(** Four registrations: a root, two children that start at the same
    instant, one of them under an id that is never registered, and a root
    whose clock reading is the earliest although it registers last. *)
Definition calls : list call :=
  [ {| call_id := "A"; call_parent := None; call_now := at_second 100 |};
    {| call_id := "B"; call_parent := Some "A"; call_now := at_second 200 |};
    {| call_id := "C"; call_parent := Some "ghost"; call_now := at_second 200 |};
    {| call_id := "D"; call_parent := None; call_now := at_second 50 |} ].

(** A tracker that knows the root "A", and calls that follow. *)
Definition with_A : t := start_agent init "A" None (at_second 100).

Definition later : list call :=
  [ {| call_id := "C"; call_parent := Some "B"; call_now := at_second 300 |};
    {| call_id := "A"; call_parent := Some "C"; call_now := at_second 400 |} ].

Definition later_B : list call :=
  [ {| call_id := "B"; call_parent := Some "A"; call_now := at_second 300 |} ].

(** Epoch milliseconds of 22:13:20 UTC. *)
Definition T : json := JInt 1700000000000.

Definition started : event :=
  [ ("type", JStr "agent_loop_started"); ("timestamp", T); ("agentId", JStr "A");
    ("model", JStr "m1"); ("maxSteps", JInt 8); ("maxDurationMs", JInt 125000) ].

Definition child_started : event :=
  [ ("type", JStr "agent_loop_started"); ("timestamp", T); ("agentId", JStr "B");
    ("parentAgentId", JStr "A") ].

Definition step : event :=
  [ ("type", JStr "agent_loop_step_started"); ("timestamp", T); ("agentId", JStr "B");
    ("step", JInt 1); ("maxSteps", JInt 8); ("progress", JInt 12) ].

Definition anonymous_started : event :=
  [ ("type", JStr "agent_loop_started"); ("timestamp", T); ("model", JStr "m1") ].

Definition completed : event := [ ("type", JStr "agent_loop_completed") ].

Definition custom : event :=
  [ ("type", JStr "custom_x"); ("timestamp", T); ("foo", JStr "bar"); ("baz", JInt 3) ].

End Sample.

(* ===================================================================== *)
(** * The lineage table as a whole *)
(* ===================================================================== *)

Module Table.
Import AgentTracker Lineage.

(** The call names [p] as the parent of its agent. *)
Definition child_of (p : string) (c : call) : bool :=
  match call_parent c with
  | Some q => given (call_parent c) && (q =? p)%string
  | None => false
  end.

(** The agents registered under the parent [p], one entry per call. *)
Definition children_of (calls : list call) (p : string) : list string :=
  map call_id (filter (child_of p) calls).

(** [self.parent_children.get(p)] *)
Definition children (tracker : t) (p : string) : option (list string) :=
  get (parent_children tracker) p.

(** What every reachable tracker satisfies: the ids of [agents] are
    distinct, and a list of children is kept under a non-empty id, is not
    empty and names registered agents only. *)
Definition consistent (tracker : t) : Prop :=
  NoDup (keys (agents tracker)) /\
  forall p l, children tracker p = Some l ->
    p <> "" /\ l <> [] /\ forall c, In c l -> mem (agents tracker) c = true.

(** The number of registered agents. *)
Definition population (tracker : t) : Z := Z.of_nat (List.length (agents tracker)).

(** No reading of the clock is earlier than one taken before it. *)
Definition clock_never_steps_back (calls : list call) : Prop :=
  StronglySorted (fun c c' => flt (call_now c') (call_now c) = false) calls.

End Table.

(* ===================================================================== *)
(** * The receive loop of listen_progress *)
(* ===================================================================== *)

(** One message off the socket (a text frame), with the two readings of
    the clock that rendering it can take. *)
Record arrival := {
  message : string;
  now_render : float;     (* [time.time()] on line 118 *)
  now_start : float       (* [time.time()] on line 53 *)
}.

(** What one turn of the loop prints: the rendered event and an empty
    line, or the two lines of the handler of JSONDecodeError. *)
Inductive block :=
| Shown (text : string)
| Unparsed (error excerpt : string).

(** How the loop ends: [recv] raises (the connection is closed), an
    exception leaves the loop for the handlers that exit with status 1, or
    an event leaves the embedding. *)
Inductive ending :=
| Closed
| Died (e : exn)
| LeftModel.

(** What [json.loads] does with a message: it returns a value, raises
    JSONDecodeError with a text, or raises another exception (ValueError
    for an int beyond the conversion limit, RecursionError for a nesting
    too deep), which the handler of line 241 does not catch. *)
Inductive decoded :=
| Value (v : json)
| Malformed (error : string)
| Refused (e : exn).

Section Listener.
Context {R : Runtime}.
Variable C : Colors.

(** [json.loads] *)
Variable loads : string -> decoded.

(** The arguments of [print] for a block. *)
Definition printed (b : block) : list string :=
  match b with
  | Shown text => [text; ""]
  | Unparsed error excerpt =>
      [ FAIL C ++ "[ERROR] Failed to parse message: " ++ error ++ ENDC C;
        "  Raw message: " ++ excerpt ]
  end.

(** Lines 234 to 244, over the messages that arrive before [recv] raises.
    A value that is not a dict has no [get]: AttributeError. *)
Fixpoint receive (arrivals : list arrival) (tracker : AgentTracker.t)
  : AgentTracker.t * list block * ending :=
  match arrivals with
  | [] => (tracker, [], Closed)
  | a :: rest =>
      match loads (message a) with
      | Malformed error =>
          let '(tracker', blocks, e) := receive rest tracker in
          (tracker', Unparsed error (slice_to 200 (message a)) :: blocks, e)
      | Refused e => (tracker, [], Died e)
      | Value (JDict ev) =>
          match format_event C (now_render a) (now_start a) ev tracker with
          | (tracker', Done text) =>
              let '(tracker'', blocks, e) := receive rest tracker' in
              (tracker'', Shown text :: blocks, e)
          | (tracker', Raised e) => (tracker', [], Died e)
          | (tracker', Unmodelled) => (tracker', [], LeftModel)
          end
      | Value _ => (tracker, [], Died AttributeError)
      end
  end.

(** What the loop writes to the standard output. *)
Definition stdout (arrivals : list arrival) (tracker : AgentTracker.t) : list string :=
  flat_map printed (snd (fst (receive arrivals tracker))).

(** The message is not one that the handler of line 241 reports. *)
Definition parses (a : arrival) : bool :=
  match loads (message a) with
  | Malformed _ => false
  | _ => true
  end.

Definition is_shown (b : block) : bool :=
  match b with
  | Shown _ => true
  | Unparsed _ _ => false
  end.

(** The registration a message stands for: an agent-started event with a
    non-empty string as agent id. *)
Definition registration_of (a : arrival) : option Lineage.call :=
  match loads (message a) with
  | Value (JDict ev) =>
      match field ev "agentId" with
      | JStr id =>
          if is_type (event_type ev) "agent_loop_started" && negb (id =? "")%string
          then Some {| Lineage.call_id := id;
                       Lineage.call_parent := parent_arg (as_key (field ev "parentAgentId"));
                       Lineage.call_now := now_start a |}
          else None
      | _ => None
      end
  | _ => None
  end.

(** The registrations of a stream, in order. *)
Fixpoint registrations (arrivals : list arrival) : list Lineage.call :=
  match arrivals with
  | [] => []
  | a :: rest =>
      match registration_of a with
      | Some c => c :: registrations rest
      | None => registrations rest
      end
  end.

End Listener.

(* ===================================================================== *)
(** * A sample stream *)
(* ===================================================================== *)

Module SampleStream.
Import AgentTracker Lineage Sample.

(** Three registrations under a clock that does not step back. *)
Definition steady_calls : list call :=
  [ {| call_id := "A"; call_parent := None; call_now := at_second 100 |};
    {| call_id := "B"; call_parent := Some "A"; call_now := at_second 200 |};
    {| call_id := "C"; call_parent := Some "ghost"; call_now := at_second 200 |} ].

(** A fourth one whose clock reading is earlier than the others. *)
Definition early_call : call :=
  {| call_id := "D"; call_parent := None; call_now := at_second 50 |}.

Definition undated : event :=
  [ ("type", JStr "agent_loop_started"); ("timestamp", JStr "soon");
    ("agentId", JStr "A") ].

Definition unbounded : event :=
  [ ("type", JStr "agent_loop_started"); ("timestamp", T); ("agentId", JStr "A");
    ("maxDurationMs", JStr "none") ].

Definition failure : event :=
  [ ("type", JStr "error"); ("timestamp", T); ("agentId", JStr "B");
    ("errorType", JStr "timeout") ].

Definition hello : event :=
  [ ("type", JStr "connected"); ("timestamp", T); ("clientId", JStr "c1");
    ("serverInfo", JDict [ ("features", JList [JStr "progress"; JStr "agents"]) ]) ].

(** A decoder that knows four messages by a name and refuses every other
    text. *)
Definition loads (m : string) : decoded :=
  if (m =? "started A")%string then Value (JDict started)
  else if (m =? "started B")%string then Value (JDict child_started)
  else if (m =? "step B")%string then Value (JDict step)
  else if (m =? "a list")%string then Value (JList [])
  else Malformed "Expecting value: line 1 column 1 (char 0)".

Definition arrive (m : string) (s : Z) : arrival :=
  {| message := m; now_render := at_second s; now_start := at_second s |}.

Definition stream : list arrival :=
  [ arrive "started A" 1700000000; arrive "not json" 1700000001;
    arrive "started B" 1700000002; arrive "step B" 1700000003 ].

End SampleStream.

(* ===================================================================== *)
(** * Properties *)
(* ===================================================================== *)

(** ** Dicts *)

Section DictFacts.
Context {V : Type}.
Implicit Types (d : list (string * V)) (k : string) (v : V).

Lemma get_set_same d k v : get (set d k v) k = Some v.
Proof.
  induction d as [|[k' v'] d IH]; cbn [set get].
  - now rewrite String.eqb_refl.
  - destruct (String.eqb_spec k' k) as [->|Hne]; cbn [get].
    + now rewrite String.eqb_refl.
    + destruct (String.eqb_spec k' k); [contradiction|exact IH].
Qed.

Lemma get_set_other d k k' v : k <> k' -> get (set d k v) k' = get d k'.
Proof.
  intros Hne. induction d as [|[k0 v0] d IH]; cbn [set get].
  - destruct (String.eqb_spec k k'); [contradiction|reflexivity].
  - destruct (String.eqb_spec k0 k) as [->|H0]; cbn [get].
    + destruct (String.eqb_spec k k'); [contradiction|reflexivity].
    + now rewrite IH.
Qed.

Lemma get_none_keys d k : get d k = None <-> ~ In k (keys d).
Proof.
  induction d as [|[k0 v0] d IH]; cbn [get keys map fst In]; [tauto|].
  destruct (String.eqb_spec k0 k) as [->|H0].
  - split; [discriminate|]. intros H. exfalso. apply H. now left.
  - rewrite IH. unfold keys. tauto.
Qed.

Lemma set_new d k v : get d k = None -> set d k v = (d ++ [(k, v)])%list.
Proof.
  induction d as [|[k0 v0] d IH]; cbn [set get app]; [reflexivity|].
  destruct (String.eqb_spec k0 k); [discriminate|].
  intros H. now rewrite IH.
Qed.

Lemma get_app_last d k v k' :
  get (d ++ [(k, v)])%list k' =
  match get d k' with
  | Some x => Some x
  | None => if (k =? k')%string then Some v else None
  end.
Proof.
  induction d as [|[k0 v0] d IH]; cbn [get app]; [reflexivity|].
  destruct (k0 =? k')%string; [reflexivity|exact IH].
Qed.

End DictFacts.

(** ** The order of clock readings *)

Section ClockOrder.
Import Lineage.

Lemma flt_reading m1 e1 m2 e2 :
  flt (S754_finite false m1 e1) (S754_finite false m2 e2) = true <->
  e1 < e2 \/ (e1 = e2 /\ (m1 < m2)%positive).
Proof.
  unfold flt, SFltb, SFcompare.
  destruct (Z.compare_spec e1 e2) as [->|H|H].
  - change (Pos.compare_cont Eq m1 m2) with (Pos.compare m1 m2).
    destruct (Pos.compare_spec m1 m2); split; intros; try discriminate; try reflexivity; lia.
  - split; [intros; left; exact H|reflexivity].
  - split; [discriminate|lia].
Qed.

Lemma flt_irrefl x : flt x x = false.
Proof.
  unfold flt, SFltb, SFcompare. destruct x as [| | |s m e]; try reflexivity.
  - destruct s; reflexivity.
  - rewrite Z.compare_refl. change (Pos.compare_cont Eq m m) with (Pos.compare m m).
    rewrite Pos.compare_refl. destruct s; reflexivity.
Qed.

Lemma flt_asym x y : reading x = true -> reading y = true ->
  flt x y = true -> flt y x = false.
Proof.
  destruct x as [| | |[] m1 e1]; try discriminate.
  destruct y as [| | |[] m2 e2]; try discriminate. intros _ _ H.
  apply flt_reading in H. apply not_true_is_false. intros H'.
  apply flt_reading in H'. lia.
Qed.

Lemma flt_negtrans x y z :
  reading x = true -> reading y = true -> reading z = true ->
  flt x y = false -> flt y z = false -> flt x z = false.
Proof.
  destruct x as [| | |[] m1 e1]; try discriminate.
  destruct y as [| | |[] m2 e2]; try discriminate.
  destruct z as [| | |[] m3 e3]; try discriminate. intros _ _ _ H1 H2.
  apply not_true_is_false. intros H3. apply flt_reading in H3.
  assert (N1 : ~ (e1 < e2 \/ (e1 = e2 /\ (m1 < m2)%positive)))
    by (rewrite <- flt_reading; congruence).
  assert (N2 : ~ (e2 < e3 \/ (e2 = e3 /\ (m2 < m3)%positive)))
    by (rewrite <- flt_reading; congruence).
  lia.
Qed.

End ClockOrder.

(** ** Counting *)

Section Counting.
Import Lineage.

Lemma count_cons {A} (f : A -> bool) x l :
  count f (x :: l) = (if f x then 1 else 0) + count f l.
Proof. unfold count. cbn [filter]. destruct (f x); cbn [List.length]; lia. Qed.

Lemma count_perm {A} (f : A -> bool) l l' : Permutation l l' -> count f l = count f l'.
Proof. induction 1; rewrite ?count_cons; lia. Qed.

Lemma count_zero {A} (f : A -> bool) l : Forall (fun b => f b = false) l -> count f l = 0.
Proof.
  induction 1 as [|x l Hx _ IH]; [reflexivity|].
  now rewrite count_cons, Hx, IH.
Qed.

Lemma count_ext_in {A} (f g : A -> bool) l :
  (forall x, In x l -> f x = g x) -> count f l = count g l.
Proof.
  induction l as [|x l IH]; intros H; [reflexivity|].
  rewrite !count_cons. rewrite (H x) by (now left).
  rewrite IH; [reflexivity|]. intros y Hy. apply H. now right.
Qed.

Lemma count_map {A B} (g : B -> A) (f : A -> bool) (l : list B) :
  count f (map g l) = count (fun x => f (g x)) l.
Proof.
  induction l as [|x l IH]; [reflexivity|].
  cbn [map]. now rewrite !count_cons, IH.
Qed.

End Counting.

(** ** [sorted] and [index] *)

Lemma index_none l a : index l a = None <-> ~ In a l.
Proof.
  induction l as [|y l IH]; cbn [index In]; [tauto|].
  destruct (String.eqb_spec y a) as [->|Hne].
  - split; [discriminate|]. intros H. exfalso. apply H. now left.
  - destruct (index l a) eqn:E.
    + split; [discriminate|]. intros H. exfalso. apply H. right.
      destruct (in_dec string_dec a l) as [Hin|Hin]; [assumption|].
      apply IH in Hin. discriminate.
    + split; [|reflexivity]. intros _ [H|H]; [congruence|]. now apply IH.
Qed.

Section SortIndex.
Import Lineage.
Variable kf : string -> float.

Lemma insert_perm x l : Permutation (insert_sorted kf flt x l) (x :: l).
Proof.
  induction l as [|y l IH]; cbn [insert_sorted]; [reflexivity|].
  destruct (flt (kf y) (kf x)); [|reflexivity].
  rewrite IH. apply perm_swap.
Qed.

Lemma sorted_perm l : Permutation (sorted kf flt l) l.
Proof.
  induction l as [|x l IH]; [reflexivity|].
  cbn [sorted fold_right]. fold (sorted kf flt l).
  rewrite insert_perm. now constructor.
Qed.

Lemma good_sorted x l : good kf (x :: l) -> good kf (x :: sorted kf flt l).
Proof.
  intros H. inversion H; subst. constructor; [assumption|].
  eapply Permutation_Forall; [symmetry; apply sorted_perm|assumption].
Qed.

Lemma insert_ordered x l :
  good kf (x :: l) -> ordered kf l -> ordered kf (insert_sorted kf flt x l).
Proof.
  intros Hg Ho. induction Ho as [|y l Ho IH Hy]; cbn [insert_sorted].
  - repeat constructor.
  - inversion Hg as [|? ? Hx Hg']; subst. inversion Hg' as [|? ? Hy' Hl]; subst.
    destruct (flt (kf y) (kf x)) eqn:E.
    + constructor.
      * apply IH. now constructor.
      * eapply Permutation_Forall; [symmetry; apply insert_perm|].
        constructor; [|assumption]. now apply flt_asym.
    + constructor; [now constructor|].
      constructor; [assumption|].
      rewrite Forall_forall in Hy, Hl |- *. intros z Hz.
      apply flt_negtrans with (kf y); auto.
Qed.

Lemma sorted_ordered l : good kf l -> ordered kf (sorted kf flt l).
Proof.
  induction l as [|x l IH]; intros Hg; [constructor|].
  cbn [sorted fold_right]. fold (sorted kf flt l).
  apply insert_ordered; [now apply good_sorted|].
  apply IH. now inversion Hg.
Qed.

(** A new element lands behind the elements with a smaller key... *)
Lemma index_insert_self x l : ~ In x l -> good kf (x :: l) -> ordered kf l ->
  index (insert_sorted kf flt x l) x = Some (count (fun b => flt (kf b) (kf x)) l).
Proof.
  intros Hx Hg Ho. induction Ho as [|y l Ho IH Hy]; cbn [insert_sorted index].
  - rewrite String.eqb_refl. reflexivity.
  - inversion Hg as [|? ? Hgx Hg']; subst. inversion Hg' as [|? ? Hgy Hgl]; subst.
    rewrite count_cons.
    destruct (flt (kf y) (kf x)) eqn:E; cbn [insert_sorted index].
    + destruct (String.eqb_spec y x) as [->|Hne]; [exfalso; apply Hx; now left|].
      rewrite IH; [f_equal; lia| |now constructor].
      intros H. apply Hx. now right.
    + rewrite String.eqb_refl. f_equal.
      rewrite count_zero; [reflexivity|].
      rewrite Forall_forall in Hy, Hgl |- *. intros z Hz.
      apply flt_negtrans with (kf y); auto.
Qed.

(** ... and moves up by one exactly those whose key is not smaller than its own. *)
Lemma index_insert_other a x l : a <> x -> In a l -> good kf (x :: l) -> ordered kf l ->
  index (insert_sorted kf flt x l) a =
  match index l a with
  | Some i => Some (i + (if flt (kf a) (kf x) then 0 else 1))
  | None => None
  end.
Proof.
  intros Hne Hin Hg Ho. induction Ho as [|y l Ho IH Hy]; [destruct Hin|].
  inversion Hg as [|? ? Hgx Hg']; subst. inversion Hg' as [|? ? Hgy Hgl]; subst.
  cbn [insert_sorted index].
  destruct (flt (kf y) (kf x)) eqn:E; cbn [insert_sorted index].
  - destruct (String.eqb_spec y a) as [->|Hya].
    + rewrite E. reflexivity.
    + destruct Hin as [Hin|Hin]; [congruence|].
      rewrite IH; [|assumption|now constructor].
      destruct (index l a); [f_equal; lia|reflexivity].
  - destruct (String.eqb_spec x a) as [->|_]; [congruence|].
    assert (Ea : flt (kf a) (kf x) = false).
    { destruct Hin as [->|Hin]; [assumption|].
      rewrite Forall_forall in Hy, Hgl.
      apply flt_negtrans with (kf y); auto. }
    rewrite Ea.
    destruct (String.eqb_spec y a) as [->|Hya]; [reflexivity|].
    destruct (index l a); reflexivity.
Qed.

(** The place of [a] after sorting: behind the ids with an earlier key and
    behind those with the same key that come before it in [l]. *)
Lemma index_sorted l a : NoDup l -> good kf l -> In a l ->
  index (sorted kf flt l) a =
  Some (count (fun b => flt (kf b) (kf a)) l
        + count (fun b => same_time (kf b) (kf a)) (ids_before l a)).
Proof.
  induction l as [|x l IH]; intros Hnd Hg Hin; [destruct Hin|].
  inversion Hnd as [|? ? Hx Hnd']; subst. inversion Hg as [|? ? Hgx Hgl]; subst.
  pose proof (good_sorted x l Hg) as Hgs.
  cbn [sorted fold_right ids_before]. fold (sorted kf flt l). rewrite count_cons.
  destruct (String.eqb_spec x a) as [->|Hne].
  - rewrite index_insert_self; [| |assumption|now apply sorted_ordered].
    + rewrite flt_irrefl. rewrite (count_perm _ _ _ (sorted_perm l)).
      unfold count at 3. cbn [filter List.length Z.of_nat]. f_equal. lia.
    + intros H. apply Hx. eapply Permutation_in; [apply sorted_perm|exact H].
  - destruct Hin as [Hin|Hin]; [congruence|].
    rewrite index_insert_other; [|congruence| |assumption|now apply sorted_ordered].
    2:{ eapply Permutation_in; [symmetry; apply sorted_perm|exact Hin]. }
    rewrite IH by assumption. f_equal. rewrite count_cons. unfold same_time.
    assert (Hga : reading (kf a) = true) by (rewrite Forall_forall in Hgl; auto).
    destruct (flt (kf a) (kf x)) eqn:E1.
    + rewrite (flt_asym _ _ Hga Hgx E1). cbn [negb andb]. lia.
    + destruct (flt (kf x) (kf a)); cbn [negb andb]; lia.
Qed.

Lemma index_sorted_none l a : ~ In a l -> index (sorted kf flt l) a = None.
Proof.
  intros H. apply index_none. intros H'. apply H.
  eapply Permutation_in; [apply sorted_perm|exact H'].
Qed.

End SortIndex.

(** ** Runs of the tracker *)

Section Runs.
Import AgentTracker Lineage.

Lemma agents_start_agent tr a p now :
  agents (start_agent tr a p now) =
  set (agents tr) a {| parentId := p; startTime := now; depth := depth_at tr p |}.
Proof.
  unfold start_agent, depth_at. cbn [agents]. repeat f_equal.
  destruct p as [p|]; [|reflexivity].
  destruct (given (Some p)); [|reflexivity].
  destruct (get (agents tr) p); [|reflexivity]. f_equal. lia.
Qed.

Lemma get_register_other tr c a :
  call_id c <> a -> get (agents (register tr c)) a = get (agents tr) a.
Proof.
  intros H. unfold register. rewrite agents_start_agent. now apply get_set_other.
Qed.

Lemma run_app calls calls' tr : run (calls ++ calls') tr = run calls' (run calls tr).
Proof. apply fold_left_app. Qed.

(** Calls for other ids leave the record of [a] alone. *)
Lemma get_run_other calls : forall tr a,
  Forall (fun c => call_id c <> a) calls ->
  get (agents (run calls tr)) a = get (agents tr) a.
Proof.
  induction calls as [|c calls IH]; intros tr a H; [reflexivity|].
  inversion H; subst. cbn [run fold_left]. fold (run calls (register tr c)).
  rewrite IH by assumption. now apply get_register_other.
Qed.

(** The record of an agent is the one its registration wrote, whatever
    other agents register afterwards. *)
Lemma record_kept tr a p now later :
  Forall (fun c => call_id c <> a) later ->
  get (agents (run later (start_agent tr a p now))) a =
  Some {| parentId := p; startTime := now; depth := depth_at tr p |}.
Proof.
  intros H. rewrite get_run_other by assumption.
  rewrite agents_start_agent. apply get_set_same.
Qed.

Lemma keys_run calls :
  NoDup (map call_id calls) -> keys (agents (run calls init)) = map call_id calls.
Proof.
  induction calls as [|c calls IH] using rev_ind; intros Hnd; [reflexivity|].
  rewrite map_app in Hnd. cbn [map] in Hnd.
  pose proof (NoDup_remove_1 _ _ _ Hnd) as Hnd'. rewrite app_nil_r in Hnd'.
  pose proof (NoDup_remove_2 _ _ _ Hnd) as Hc. rewrite app_nil_r in Hc.
  rewrite run_app. cbn [run fold_left]. unfold register at 1.
  rewrite agents_start_agent. fold (run calls init).
  rewrite set_new.
  - unfold keys in *. rewrite !map_app, IH by assumption. reflexivity.
  - apply get_none_keys. now rewrite IH.
Qed.

Lemma get_run_registered before c after :
  NoDup (map call_id (before ++ c :: after)) ->
  exists d, get (agents (run (before ++ c :: after) init)) (call_id c) =
            Some {| parentId := call_parent c; startTime := call_now c; depth := d |}.
Proof.
  intros Hnd. rewrite run_app. cbn [run fold_left]. fold (run after).
  unfold register at 1. eexists. apply record_kept.
  rewrite map_app in Hnd. cbn [map] in Hnd. apply NoDup_remove_2 in Hnd.
  rewrite Forall_forall. intros c' Hc' E. apply Hnd.
  apply in_or_app. right. rewrite <- E. now apply in_map.
Qed.

Lemma registration_none calls a :
  registration calls a = None <-> ~ In a (map call_id calls).
Proof.
  unfold registration. induction calls as [|c calls IH]; cbn [find map In]; [tauto|].
  destruct (String.eqb_spec (call_id c) a) as [E|E].
  - split; [discriminate|]. intros H. exfalso. apply H. now left.
  - rewrite IH. tauto.
Qed.

Lemma registration_split calls a c :
  registration calls a = Some c ->
  call_id c = a /\
  exists after, calls = (registered_before calls a ++ c :: after)%list.
Proof.
  unfold registration. induction calls as [|c0 calls IH]; cbn [find registered_before];
    [discriminate|].
  destruct (String.eqb_spec (call_id c0) a) as [E|E].
  - intros [= ->]. split; [assumption|]. now exists calls.
  - intros H. destruct (IH H) as (Hc & after & Hsplit). split; [assumption|].
    exists after. cbn [app]. now rewrite <- Hsplit.
Qed.

Lemma ids_before_map calls a :
  ids_before (map call_id calls) a = map call_id (registered_before calls a).
Proof.
  induction calls as [|c calls IH]; [reflexivity|].
  cbn [map ids_before registered_before].
  destruct (call_id c =? a)%string; [reflexivity|]. cbn [map]. now rewrite IH.
Qed.

Lemma registered_before_incl calls a c :
  In c (registered_before calls a) -> In c calls.
Proof.
  induction calls as [|c0 calls IH]; cbn [registered_before]; [tauto|].
  destruct (call_id c0 =? a)%string; [intros []|].
  intros [H|H]; [now left|right; auto].
Qed.

(** After a run with distinct ids, the sort key of a registered id is the
    clock reading of its registration. *)
Lemma start_of_run calls c :
  NoDup (map call_id calls) -> In c calls ->
  start_of (run calls init) (call_id c) = call_now c.
Proof.
  intros Hnd Hin. apply in_split in Hin as (before & after & ->).
  destruct (get_run_registered before c after Hnd) as [d Hd].
  unfold start_of. now rewrite Hd.
Qed.

(** [_get_agent_num] computes the ordinal. *)
Lemma agent_num_ordinal calls a :
  NoDup (map call_id calls) ->
  Forall (fun c => reading (call_now c) = true) calls ->
  _get_agent_num (run calls init) a = ordinal calls a.
Proof.
  intros Hnd Hr. unfold _get_agent_num, ordinal.
  rewrite keys_run by assumption.
  destruct (registration calls a) as [c|] eqn:Ereg.
  - destruct (registration_split _ _ _ Ereg) as (Hid & after & Hsplit).
    assert (Hin : In c calls) by (rewrite Hsplit; apply in_or_app; right; now left).
    assert (Hkey : forall c', In c' calls ->
              start_of (run calls init) (call_id c') = call_now c')
      by (intros; now apply start_of_run).
    rewrite index_sorted.
    + rewrite ids_before_map, !count_map, <- Hid, (Hkey c Hin).
      rewrite (count_ext_in _ (fun c' => flt (call_now c') (call_now c))).
      2:{ intros c' Hc'. now rewrite Hkey. }
      rewrite (count_ext_in _ (fun c' => same_time (call_now c') (call_now c))
                 (registered_before calls (call_id c))).
      2:{ intros c' Hc'. rewrite Hkey; [reflexivity|].
          eapply registered_before_incl; eassumption. }
      lia.
    + assumption.
    + unfold good. rewrite Forall_forall in Hr |- *. intros b Hb.
      apply in_map_iff in Hb as (c' & <- & Hc'). rewrite Hkey by assumption. auto.
    + rewrite <- Hid. now apply in_map.
  - rewrite index_sorted_none; [reflexivity|]. now apply registration_none.
Qed.

End Runs.

(** ** The tracker *)

Section TrackerClaims.
Import AgentTracker Lineage.

Lemma length_append (s1 s2 : string) :
  String.length (s1 ++ s2) = (String.length s1 + String.length s2)%nat.
Proof. induction s1 as [|c s1 IH]; cbn; [reflexivity|]. now rewrite IH. Qed.

Lemma length_str_mul s n : String.length (str_mul s n) = (n * String.length s)%nat.
Proof.
  induction n as [|n IH]; [reflexivity|].
  cbn [str_mul]. rewrite length_append, IH. lia.
Qed.

Lemma blank_indent n : blank (str_mul "  " n).
Proof.
  induction n as [|n IH]; intros i c; cbn [str_mul].
  - destruct i; discriminate.
  - destruct i as [|[|i]]; cbn; try (now intros [= <-]). apply IH.
Qed.

(** C4: the indentation of a registered agent is made of spaces only and
    has two of them per level of its stored depth; that of an unknown
    agent is the empty string. *)
Theorem indent_two_spaces_per_level (tracker : t) (agent_id : string) :
  blank (get_indent tracker agent_id) /\
  String.length (get_indent tracker agent_id) =
    match depth_of tracker agent_id with
    | Some d => (2 * d)%nat
    | None => O
    end /\
  (get (agents tracker) agent_id = None -> get_indent tracker agent_id = "").
Proof.
  unfold get_indent, depth_of.
  destruct (get (agents tracker) agent_id) as [r|]; cbn [option_map].
  - split; [apply blank_indent|]. split; [|discriminate].
    rewrite length_str_mul. cbn [String.length]. lia.
  - split; [intros i c; destruct i; discriminate|]. split; reflexivity.
Qed.

(** C3: the depth of an agent is set by its registration, to the depth of
    the parent plus one when a parent id is supplied and registered at that
    moment and to 0 otherwise, and the registrations that follow for other
    agents, the parent included, leave it as it is. *)
Theorem depth_fixed_at_registration (tracker : t) (agent_id : string)
    (parent_id : option string) (now : float) (later : list call) :
  Forall (fun c => call_id c <> agent_id) later ->
  depth_of (start_agent tracker agent_id parent_id now) agent_id
    = Some (depth_at tracker parent_id) /\
  depth_of (run later (start_agent tracker agent_id parent_id now)) agent_id
    = Some (depth_at tracker parent_id).
Proof.
  intros H. unfold depth_of. split.
  - change (start_agent tracker agent_id parent_id now)
      with (run [] (start_agent tracker agent_id parent_id now)).
    now rewrite record_kept.
  - now rewrite record_kept.
Qed.

(** C9, as amended: the start time of an agent is the clock reading of its
    registration, and the registrations that follow for other agents leave
    it as it is. *)
Theorem startTime_kept (tracker : t) (agent_id : string)
    (parent_id : option string) (now : float) (later : list call) :
  Forall (fun c => call_id c <> agent_id) later ->
  startTime_of (run later (start_agent tracker agent_id parent_id now)) agent_id
    = Some now.
Proof. intros H. unfold startTime_of. now rewrite record_kept. Qed.

(** C1: after registrations with distinct ids, the prefix of an agent is the
    placeholder when the id is unknown, a tag with its ordinal when it has
    no parent, and a tag with its ordinal and that of its parent, "child →
    parent", otherwise; the ordinal is the rank of the start time among the
    registered agents, and 0 for an id that is not registered. *)
Theorem prefix_shows_rank (calls : list call) :
  NoDup (map call_id calls) ->
  Forall (fun c => reading (call_now c) = true) calls ->
  forall agent_id,
    get_agent_prefix (run calls init) agent_id = tag calls agent_id /\
    _get_agent_num (run calls init) agent_id = ordinal calls agent_id.
Proof.
  intros Hnd Hr a. split; [|now apply agent_num_ordinal].
  unfold get_agent_prefix, tag.
  destruct (registration calls a) as [c|] eqn:Ereg.
  - destruct (registration_split _ _ _ Ereg) as (Hid & after & Hsplit).
    pose proof Hnd as Hnd'. rewrite Hsplit in Hnd'.
    destruct (get_run_registered _ _ _ Hnd') as [d Hd].
    rewrite <- Hsplit, Hid in Hd. rewrite Hd. cbn [parentId].
    rewrite !agent_num_ordinal by assumption.
    destruct (call_parent c) as [p|]; [|reflexivity].
    now rewrite !agent_num_ordinal by assumption.
  - replace (get (agents (run calls init)) a) with (@None agent); [reflexivity|].
    symmetry. apply get_none_keys. rewrite keys_run by assumption.
    now apply registration_none.
Qed.

End TrackerClaims.

(** ** Division of ints and rounding to a float *)

Section FloatFacts.

Lemma digits2_size p : digits2_pos p = Pos.size p.
Proof. induction p; cbn; congruence. Qed.

Lemma Zdigits2_log2 z : 0 < z -> Zdigits2 z = Z.log2 z + 1.
Proof.
  destruct z as [|p|p]; try lia. intros _. cbn [Zdigits2]. rewrite digits2_size.
  destruct p; cbn; lia.
Qed.

Lemma Zdigits2_nonneg z : 0 <= Zdigits2 z.
Proof. destruct z; cbn; lia. Qed.

Lemma Zdigits2_bound z k : 0 <= z < 2 ^ k -> 0 <= k -> Zdigits2 z <= k.
Proof.
  intros [H0 Hk] Hk0. destruct (Z.eq_dec z 0) as [->|Hz]; [cbn; lia|].
  rewrite Zdigits2_log2 by lia.
  assert (Z.log2 z < k) by (apply Z.log2_lt_pow2; lia). lia.
Qed.

Lemma Zdigits2_gt z : 0 <= z -> z < 2 ^ Zdigits2 z.
Proof.
  intros H. destruct (Z.eq_dec z 0) as [->|Hz]; [cbn; lia|].
  rewrite Zdigits2_log2 by lia.
  pose proof (Z.log2_spec z ltac:(lia)).
  replace (Z.log2 z + 1) with (Z.succ (Z.log2 z)) by lia. lia.
Qed.

Lemma Zdigits2_succ m k : 0 <= m -> m <= k <= m + 1 -> Zdigits2 k <= Zdigits2 m + 1.
Proof.
  intros Hm Hk. pose proof (Zdigits2_gt m Hm). pose proof (Zdigits2_nonneg m).
  apply Zdigits2_bound; [|lia]. split; [lia|].
  rewrite Z.pow_add_r by lia. change (2 ^ 1) with 2. lia.
Qed.

Lemma shr_1_m mrs : 0 <= shr_m mrs -> shr_m (shr_1 mrs) = shr_m mrs / 2.
Proof.
  destruct mrs as [m r s]. cbn [shr_m shr_1]. intros H.
  destruct m as [|p|p]; try lia; [reflexivity|].
  destruct p; cbn [shr_m].
  - rewrite Pos2Z.inj_xI. apply Z.div_unique with 1; lia.
  - rewrite Pos2Z.inj_xO. apply Z.div_unique with 0; lia.
  - reflexivity.
Qed.

Lemma iter_shr_1_m p : forall mrs, 0 <= shr_m mrs ->
  shr_m (iter_pos shr_1 p mrs) = shr_m mrs / 2 ^ Zpos p.
Proof.
  induction p; intros mrs H; cbn [iter_pos].
  - assert (H1 : 0 <= shr_m (shr_1 mrs))
      by (rewrite shr_1_m by lia; apply Z.div_pos; lia).
    assert (H2 : 0 <= shr_m (iter_pos shr_1 p (shr_1 mrs)))
      by (rewrite IHp by lia; apply Z.div_pos; lia).
    rewrite IHp, IHp, shr_1_m by lia.
    rewrite !Z.div_div by lia. f_equal.
    replace (Z.pos p~1) with (Z.pos p + Z.pos p + 1) by lia.
    rewrite !Z.pow_add_r by lia. lia.
  - assert (H2 : 0 <= shr_m (iter_pos shr_1 p mrs))
      by (rewrite IHp by lia; apply Z.div_pos; lia).
    rewrite IHp, IHp by lia.
    rewrite !Z.div_div by lia. f_equal.
    replace (Z.pos p~0) with (Z.pos p + Z.pos p) by lia.
    rewrite !Z.pow_add_r by lia. lia.
  - rewrite shr_1_m by lia. reflexivity.
Qed.

Lemma shr_spec mrs e n : 0 <= shr_m mrs ->
  shr_m (fst (shr mrs e n)) = shr_m mrs / 2 ^ Z.max n 0 /\
  snd (shr mrs e n) = e + Z.max n 0.
Proof.
  intros H. destruct n as [|p|p]; cbn [shr fst snd].
  - rewrite Z.div_1_r. lia.
  - rewrite iter_shr_1_m by lia. split; [reflexivity|lia].
  - rewrite Z.div_1_r. lia.
Qed.

Lemma shr_record_of_loc_m m l : shr_m (shr_record_of_loc m l) = m.
Proof. destruct l as [|[]]; reflexivity. Qed.

(** [shr_fexp]: the mantissa is cut down to the precision, the exponent
    raised by as much. *)
Lemma shr_fexp_spec m e l : 0 <= m ->
  let '(mrs, e') := shr_fexp prec emax m e l in
  e' = Z.max e (fexp prec emax (Zdigits2 m + e)) /\
  shr_m mrs = m / 2 ^ (e' - e) /\
  Zdigits2 (shr_m mrs) + e' <= Z.max (Zdigits2 m + e) e'.
Proof.
  intros Hm. unfold shr_fexp.
  set (n := fexp prec emax (Zdigits2 m + e) - e).
  pose proof (shr_spec (shr_record_of_loc m l) e n) as Hs.
  rewrite shr_record_of_loc_m in Hs. specialize (Hs Hm).
  destruct (shr (shr_record_of_loc m l) e n) as [mrs e'] eqn:E. cbn [fst snd] in Hs.
  destruct Hs as [Hm' He']. split; [lia|]. split.
  - rewrite Hm'. f_equal. f_equal. lia.
  - destruct (Z.eq_dec (shr_m mrs) 0) as [Hz|Hz]; [rewrite Hz; cbn; lia|].
    assert (0 < shr_m mrs) by (pose proof (Z.div_pos m (2 ^ Z.max n 0)); lia).
    assert (Zdigits2 (shr_m mrs) <= Zdigits2 m - Z.max n 0); [|lia].
    pose proof (Zdigits2_nonneg m). pose proof (Zdigits2_gt m Hm).
    destruct (Z_lt_le_dec (Zdigits2 m) (Z.max n 0)).
    + exfalso. assert (m / 2 ^ Z.max n 0 = 0); [|lia].
      apply Z.div_small. split; [lia|]. eapply Z.lt_le_trans; [eassumption|].
      apply Z.pow_le_mono_r; lia.
    + apply Zdigits2_bound; [|lia]. split; [lia|]. rewrite Hm'.
      apply Z.div_lt_upper_bound; [lia|]. rewrite <- Z.pow_add_r by lia.
      replace (Z.max n 0 + (Zdigits2 m - Z.max n 0)) with (Zdigits2 m) by lia. lia.
Qed.

Lemma round_nearest_even_bounds m l : m <= round_nearest_even m l <= m + 1.
Proof. destruct l as [|[]]; cbn; try lia. destruct (Z.even m); lia. Qed.

Lemma binary_round_aux_spec sx mx ex lx : 0 <= mx ->
  exists m3 e3, rounds mx ex m3 e3 /\ 0 <= m3 /\
    binary_round_aux prec emax sx mx ex lx =
    match m3 with
    | Z0 => S754_zero sx
    | Zpos m => if e3 <=? emax - prec then S754_finite sx m e3 else S754_infinity sx
    | Zneg _ => S754_nan
    end.
Proof.
  intros Hm. unfold binary_round_aux.
  pose proof (shr_fexp_spec mx ex lx Hm) as H1.
  destruct (shr_fexp prec emax mx ex lx) as [mrs' e'].
  destruct H1 as (He1 & Hm1 & Hd1).
  pose proof (round_nearest_even_bounds (shr_m mrs') (loc_of_shr_record mrs')) as Hr.
  set (m2 := round_nearest_even (shr_m mrs') (loc_of_shr_record mrs')) in *.
  assert (Hm1' : 0 <= shr_m mrs') by (rewrite Hm1; apply Z.div_pos; lia).
  assert (Hm2 : 0 <= m2) by lia.
  pose proof (shr_fexp_spec m2 e' loc_Exact Hm2) as H2.
  destruct (shr_fexp prec emax m2 e' loc_Exact) as [mrs'' e''].
  destruct H2 as (He2 & Hm3 & Hd2).
  exists (shr_m mrs''), e''. split; [|split].
  - exists (shr_m mrs'), m2, e'. repeat split; try assumption; lia.
  - rewrite Hm3. apply Z.div_pos; lia.
  - reflexivity.
Qed.

(** The quotient [SFdiv] hands to the rounding. *)
Lemma SFdiv_core_spec pa pb :
  let e' := Z.min (fexp prec emax (Zdigits2 (Zpos pa) - Zdigits2 (Zpos pb))) 0 in
  SFdiv_core_binary prec emax (Zpos pa) 0 (Zpos pb) 0 =
  (Zpos pa * 2 ^ (- e') / Zpos pb, e',
   new_location (Zpos pb) ((Zpos pa * 2 ^ (- e')) mod Zpos pb)).
Proof.
  intros e'. unfold SFdiv_core_binary.
  replace (Zdigits2 (Z.pos pa) + 0 - (Zdigits2 (Z.pos pb) + 0))
    with (Zdigits2 (Zpos pa) - Zdigits2 (Zpos pb)) by lia.
  change (0 - 0) with 0. fold e'.
  assert (He' : e' <= 0) by (subst e'; lia).
  replace (0 - e') with (- e') by lia.
  set (m' := match - e' with Z.pos _ => Z.shiftl (Z.pos pa) (- e') | 0 => Z.pos pa | Z.neg _ => 0 end).
  assert (Hm' : m' = Z.pos pa * 2 ^ (- e')).
  { subst m'. destruct (- e') eqn:E; try lia.
    rewrite Z.shiftl_mul_pow2 by lia. reflexivity. }
  rewrite Hm'. unfold Z.div, Z.modulo.
  destruct (Z.div_eucl (Z.pos pa * 2 ^ (- e')) (Z.pos pb)). reflexivity.
Qed.

(** No overflow below [2^1024] for a divisor of 2 or more. *)
Lemma int_truediv_finite a b :
  0 < a < 2 ^ 1024 -> 2 <= b ->
  int_truediv a b = Ok (S754_zero false) \/
  exists m e, int_truediv a b = Ok (S754_finite false m e).
Proof.
  intros Ha Hb. unfold int_truediv.
  destruct a as [|pa|pa]; try lia. destruct b as [|pb|pb]; try lia.
  cbn [exact_of_Z SFdiv xorb]. rewrite SFdiv_core_spec.
  set (e' := Z.min _ _). assert (He' : e' <= 0) by (subst e'; lia).
  set (q := Z.pos pa * 2 ^ (- e') / Z.pos pb).
  assert (Hq0 : 0 <= q) by (subst q; apply Z.div_pos; nia).
  assert (Hq1 : q < 2 ^ (1023 - e')).
  { subst q. apply Z.div_lt_upper_bound; [lia|].
    assert (Z.pos pa * 2 ^ (- e') < 2 ^ 1024 * 2 ^ (- e'))
      by (apply Z.mul_lt_mono_pos_r; lia).
    replace (1023 - e') with (1023 + (- e')) by lia. rewrite Z.pow_add_r by lia.
    change (2 ^ 1024) with (2 * 2 ^ 1023) in H. nia. }
  pose proof (Zdigits2_bound q (1023 - e') (conj Hq0 Hq1) ltac:(lia)) as Hdq.
  destruct (binary_round_aux_spec false q e' (new_location (Z.pos pb)
              ((Z.pos pa * 2 ^ (- e')) mod Z.pos pb)) Hq0)
    as (m3 & e3 & (m1 & m2 & e1 & He1 & Hm1 & Hd1 & Hm2 & He3 & Hm3) & Hm30 & ->).
  assert (Hm10 : 0 <= m1) by (subst m1; apply Z.div_pos; lia).
  pose proof (Zdigits2_succ m1 m2 Hm10 Hm2) as Hs.
  assert (He3' : (e3 <=? emax - prec) = true).
  { apply Z.leb_le. unfold fexp, emin, prec, emax in *. lia. }
  destruct m3 as [|m|m]; [now left| |lia].
  right. exists m, e3. now rewrite He3'.
Qed.

End FloatFacts.

(** ** Accuracy of [int / int] and of the rounding to tenths *)

Section Accuracy.

Lemma near_bounds a b den P1 P3 q m1 m2 m3 :
  0 < b -> 1 <= P1 -> 1 <= P3 -> 0 < den -> 0 <= m3 ->
  b * q <= a * (den * P1 * P3) < b * q + b ->
  P1 * m1 <= q < P1 * m1 + P1 ->
  m1 <= m2 <= m1 + 1 ->
  P3 * m3 <= m2 < P3 * m3 + P3 ->
  a * den - 3 * b < m3 * b <= a * den + b.
Proof.
  intros Hb HP1 HP3 Hden Hm3 Bq B1 B2 B3.
  assert (HX : 0 < P1 * P3) by nia.
  assert (HPb : 0 < P1 * b) by nia.
  assert (U1 : P3 * m3 * (P1 * b) <= m2 * (P1 * b))
    by (apply Z.mul_le_mono_nonneg_r; lia).
  assert (U2 : m2 * (P1 * b) <= (m1 + 1) * (P1 * b))
    by (apply Z.mul_le_mono_nonneg_r; lia).
  assert (U3 : P1 * m1 * b <= q * b) by (apply Z.mul_le_mono_nonneg_r; lia).
  assert (L1 : m2 * (P1 * b) < (P3 * m3 + P3) * (P1 * b))
    by (apply Z.mul_lt_mono_pos_r; lia).
  assert (L2 : m1 * (P1 * b) <= m2 * (P1 * b))
    by (apply Z.mul_le_mono_nonneg_r; lia).
  assert (L3 : q * b < (P1 * m1 + P1) * b) by (apply Z.mul_lt_mono_pos_r; lia).
  assert (PX : P1 * b * 1 <= P1 * b * P3) by (apply Z.mul_le_mono_nonneg_l; lia).
  assert (BX : b * 1 <= b * (P1 * P3)) by (apply Z.mul_le_mono_nonneg_l; lia).
  split.
  - apply (Z.mul_lt_mono_pos_r (P1 * P3)); [assumption|]. lia.
  - apply (Z.mul_le_mono_pos_r _ _ (P1 * P3)); [assumption|]. lia.
Qed.

Lemma nearest_from_bounds a b n m den :
  0 < b -> Z.even b = true -> 30 * b < den ->
  Z.abs (m * b - a * den) <= 3 * b ->
  2 * Z.abs (n * den - 10 * m) <= den ->
  2 * Z.abs (b * n - 10 * a) <= b.
Proof.
  intros Hb Hev Hden Hv Hu.
  set (u := n * den - 10 * m) in *. set (v := m * b - a * den) in *.
  assert (E : (b * n - 10 * a) * den = b * u + 10 * v) by (subst u v; ring).
  assert (U1 : b * (2 * u) <= b * den) by (apply Z.mul_le_mono_nonneg_l; lia).
  assert (U2 : b * (- den) <= b * (2 * u)) by (apply Z.mul_le_mono_nonneg_l; lia).
  set (X := b * n - 10 * a) in *.
  assert (H1 : 2 * X * den < (b + 2) * den) by lia.
  assert (H2 : (- (b + 2)) * den < 2 * X * den) by lia.
  apply Z.mul_lt_mono_pos_r in H1, H2; try lia.
  apply Z.even_spec in Hev as [k Hk]. lia.
Qed.

Lemma tenths_near m e : e < 0 ->
  2 * Z.abs (tenths m e * 2 ^ (- e) - 10 * Zpos m) <= 2 ^ (- e).
Proof.
  intros He. destruct e as [|p|p]; try lia. cbn [tenths Z.opp].
  set (den := 2 ^ Z.pos p). assert (Hden : 0 < den) by (subst den; lia).
  pose proof (Z.div_mod (10 * Z.pos m) den ltac:(lia)) as Hdm.
  pose proof (Z.mod_pos_bound (10 * Z.pos m) den Hden) as Hr.
  set (q := 10 * Z.pos m / den) in *. set (r := (10 * Z.pos m) mod den) in *.
  assert (E1 : (q + 1) * den = den * q + den) by ring.
  assert (E0 : q * den = den * q) by ring.
  destruct (Z.compare_spec (2 * r) den) as [E|E|E].
  - destruct (Z.even q); lia.
  - lia.
  - lia.
Qed.

Lemma tenths_nonneg m e : 0 <= tenths m e.
Proof.
  destruct e as [|p|p]; cbn [tenths]; try lia.
  set (den := 2 ^ Z.pos p). assert (Hden : 0 < den) by (subst den; lia).
  pose proof (Z.div_pos (10 * Z.pos m) den ltac:(lia) Hden).
  destruct (_ ?= _); [destruct (Z.even _)| |]; lia.
Qed.

Lemma div_bounds a b : 0 < b -> b * (a / b) <= a < b * (a / b) + b.
Proof.
  intros Hb. pose proof (Z.div_mod a b ltac:(lia)).
  pose proof (Z.mod_pos_bound a b Hb). lia.
Qed.

Lemma int_truediv_near a b :
  0 < b -> b <= a < 2 ^ 46 ->
  exists m e,
    int_truediv a b = Ok (S754_finite false m e) /\
    e < 0 /\ 30 * b < 2 ^ (- e) /\
    Z.abs (Zpos m * b - a * 2 ^ (- e)) <= 3 * b.
Proof.
  intros Hb Ha. unfold int_truediv.
  destruct a as [|pa|pa]; try lia. destruct b as [|pb|pb]; try lia.
  cbn [exact_of_Z SFdiv xorb]. rewrite SFdiv_core_spec.
  set (a := Z.pos pa) in *. set (b := Z.pos pb) in *.
  set (d1 := Zdigits2 a). set (d2 := Zdigits2 b).
  assert (Hd1 : d1 <= 46) by (apply Zdigits2_bound; lia).
  assert (Hd2 : 1 <= d2 <= d1).
  { subst d1 d2. rewrite !Zdigits2_log2 by lia.
    pose proof (Z.log2_nonneg b). pose proof (Z.log2_le_mono b a). lia. }
  assert (Hb2 : b < 2 ^ d2) by (apply Zdigits2_gt; lia).
  assert (Hb1 : 2 ^ (d2 - 1) <= b).
  { subst d2. rewrite Zdigits2_log2 by lia.
    replace (Z.log2 b + 1 - 1) with (Z.log2 b) by lia. apply Z.log2_spec. lia. }
  assert (Ha2 : a < 2 ^ d1) by (apply Zdigits2_gt; lia).
  set (e' := Z.min _ _).
  assert (He' : e' = d1 - d2 - 53) by (subst e'; unfold fexp, emin, prec, emax; lia).
  clearbody e'. subst e'.
  set (s := - (d1 - d2 - 53)). assert (Hs : s = 53 + d2 - d1) by (subst s; lia).
  set (q := a * 2 ^ s / b).
  assert (Hq0 : 0 <= q) by (subst q; apply Z.div_pos; [apply Z.mul_nonneg_nonneg|]; lia).
  assert (Hq1 : q < 2 ^ 54).
  { subst q. apply Z.div_lt_upper_bound; [lia|].
    assert (H : a * 2 ^ s < 2 ^ d1 * 2 ^ s) by (apply Z.mul_lt_mono_pos_r; lia).
    rewrite <- Z.pow_add_r in H by lia.
    replace (d1 + s) with ((d2 - 1) + 54) in H by lia.
    rewrite Z.pow_add_r in H by lia.
    assert (2 ^ (d2 - 1) * 2 ^ 54 <= b * 2 ^ 54)
      by (apply Z.mul_le_mono_nonneg_r; lia).
    lia. }
  pose proof (Zdigits2_bound q 54 (conj Hq0 Hq1) ltac:(lia)) as Hdq.
  pose proof (Zdigits2_nonneg q) as Hdq0.
  destruct (binary_round_aux_spec false q (d1 - d2 - 53) (new_location b
              ((a * 2 ^ s) mod b)) Hq0)
    as (m3 & e3 & (m1 & m2 & e1 & He1 & Hm1 & Hdm1 & Hm2 & He3 & Hm3) & Hm30 & ->).
  assert (Hm10 : 0 <= m1) by (subst m1; apply Z.div_pos; lia).
  pose proof (Zdigits2_nonneg m1) as Hdm10.
  pose proof (Zdigits2_succ m1 m2 Hm10 Hm2) as Hdm2.
  pose proof (Zdigits2_nonneg m2) as Hdm20.
  unfold fexp, emin, prec, emax in He1, He3.
  assert (Ee1 : d1 - d2 - 53 <= e1 <= d1 - d2 - 52) by lia.
  assert (Ee3 : e1 <= e3 <= e1 + 1) by lia.
  set (P1 := 2 ^ (e1 - (d1 - d2 - 53))) in *.
  set (P3 := 2 ^ (e3 - e1)) in *.
  set (den := 2 ^ (- e3)).
  assert (HP1 : 1 <= P1)
    by (subst P1; pose proof (Z.pow_pos_nonneg 2 (e1 - (d1 - d2 - 53))); lia).
  assert (HP3 : 1 <= P3) by (subst P3; pose proof (Z.pow_pos_nonneg 2 (e3 - e1)); lia).
  assert (HS : 2 ^ s = den * P1 * P3).
  { subst den P1 P3. rewrite <- !Z.pow_add_r by lia. f_equal. lia. }
  assert (Hden : 32 * 2 ^ d2 <= den).
  { subst den. change 32 with (2 ^ 5). rewrite <- Z.pow_add_r by lia.
    apply Z.pow_le_mono_r; lia. }
  assert (Hden0 : 0 < den) by lia.
  pose proof (div_bounds (a * 2 ^ s) b ltac:(lia)) as Bq. fold q in Bq.
  pose proof (div_bounds q P1 ltac:(lia)) as B1. rewrite <- Hm1 in B1.
  pose proof (div_bounds m2 P3 ltac:(lia)) as B3. rewrite <- Hm3 in B3.
  rewrite HS in Bq.
  pose proof (near_bounds a b den P1 P3 q m1 m2 m3 ltac:(lia) HP1 HP3 Hden0 Hm30
                Bq B1 Hm2 B3) as [Lo Up].
  assert (Hm3pos : 0 < m3 * b).
  { assert (b * 32 <= a * den); [|lia].
    apply Z.mul_le_mono_nonneg; lia. }
  destruct m3 as [|m|m]; try lia.
  exists m, e3.
  replace (e3 <=? emax - prec) with true
    by (symmetry; apply Z.leb_le; unfold emax, prec; lia).
  fold den. repeat split; try reflexivity; lia.
Qed.

Lemma int_truediv_tenths a b :
  0 < b -> Z.even b = true -> b <= a < 2 ^ 46 ->
  exists m e,
    int_truediv a b = Ok (S754_finite false m e) /\
    2 * Z.abs (b * tenths m e - 10 * a) <= b.
Proof.
  intros Hb Hev Ha.
  destruct (int_truediv_near a b Hb Ha) as (m & e & Hdiv & He & Hden & Hnear).
  exists m, e. split; [assumption|].
  apply (nearest_from_bounds a b (tenths m e) (Zpos m) (2 ^ (- e))); try assumption.
  now apply tenths_near.
Qed.

End Accuracy.

(** ** Durations *)

Section Durations.
Context {R : Runtime}.

Lemma one_decimal_zero : fmt1 (S754_zero false) = one_decimal 0.
Proof. reflexivity. Qed.

(** Below 1000 the count of milliseconds is shown as it is. *)
Lemma format_duration_ms z : z < 1000 -> format_duration (JInt z) = Ok (dec z ++ "ms").
Proof.
  intros H. unfold format_duration. cbn [py_lt].
  now replace (z <? 1000) with true by (symmetry; apply Z.ltb_lt; lia).
Qed.

Lemma format_duration_s z : 1000 <= z < 60000 ->
  format_duration (JInt z) = x <- int_truediv z 1000 ;; Ok (fmt1 x ++ "s").
Proof.
  intros H. unfold format_duration. cbn [py_lt py_truediv].
  replace (z <? 1000) with false by (symmetry; apply Z.ltb_ge; lia).
  now replace (z <? 60000) with true by (symmetry; apply Z.ltb_lt; lia).
Qed.

Lemma format_duration_m z : 60000 <= z ->
  format_duration (JInt z) = x <- int_truediv z 60000 ;; Ok (fmt1 x ++ "m").
Proof.
  intros H. unfold format_duration. cbn [py_lt py_truediv].
  replace (z <? 1000) with false by (symmetry; apply Z.ltb_ge; lia).
  now replace (z <? 60000) with false by (symmetry; apply Z.ltb_ge; lia).
Qed.

(** A duration field that holds a number is rendered. *)
Lemma format_duration_total v :
  duration_ok v = true -> exists text, format_duration v = Ok text.
Proof.
  destruct v as [|b|z|f|s|l|d]; cbn [duration_ok]; try discriminate; intros H.
  - unfold format_duration. cbn [py_lt]. destruct b; cbn; eauto.
  - apply Z.ltb_lt in H.
    destruct (Z_lt_le_dec z 1000) as [H1|H1];
      [rewrite format_duration_ms by assumption; eauto|].
    destruct (Z_lt_le_dec z 60000) as [H2|H2].
    + rewrite format_duration_s by lia.
      destruct (int_truediv_finite z 1000) as [->|(m & e & ->)]; try lia;
        cbn [bind]; eauto.
    + rewrite format_duration_m by lia.
      destruct (int_truediv_finite z 60000) as [->|(m & e & ->)]; try lia;
        cbn [bind]; eauto.
  - unfold format_duration. cbn [py_lt py_truediv].
    destruct (flt f (float_of_Z 1000)); [eauto|].
    destruct (flt f (float_of_Z 60000)); cbn [bind]; eauto.
Qed.

(** C2, as amended: for an int of milliseconds from 0 to below [2^1024],
    the duration is the count with "ms" below 1000, seconds with one
    decimal and "s" from 1000 to below 60000, minutes with one decimal and
    "m" from 60000 on; the decimal shown is a nearest tenth of the quotient
    (at least below [2^46] milliseconds).  The six values of the design
    document are as it gives them. *)
Theorem format_duration_policy (ms : Z) :
  0 <= ms < 2 ^ 1024 ->
  (ms < 1000 -> format_duration (JInt ms) = Ok (dec ms ++ "ms")) /\
  (1000 <= ms < 60000 ->
   exists n, 0 <= n /\ Z.abs (100 * n - ms) <= 50 /\
     format_duration (JInt ms) = Ok (one_decimal n ++ "s")) /\
  (60000 <= ms ->
   exists n, 0 <= n /\ (ms < 2 ^ 46 -> Z.abs (6000 * n - ms) <= 3000) /\
     format_duration (JInt ms) = Ok (one_decimal n ++ "m")) /\
  format_duration (JInt 0) = Ok "0ms" /\
  format_duration (JInt 999) = Ok "999ms" /\
  format_duration (JInt 1000) = Ok "1.0s" /\
  format_duration (JInt 59999) = Ok "60.0s" /\
  format_duration (JInt 60000) = Ok "1.0m" /\
  format_duration (JInt 125000) = Ok "2.1m".
Proof.
  intros Hms. split; [|split; [|split]].
  - apply format_duration_ms.
  - intros H. rewrite format_duration_s by assumption.
    destruct (int_truediv_tenths ms 1000 ltac:(lia) eq_refl ltac:(lia))
      as (m & e & -> & Hn).
    exists (tenths m e). cbn [bind fmt1]. pose proof (tenths_nonneg m e).
    split; [assumption|split; [lia|reflexivity]].
  - intros H. rewrite format_duration_m by assumption.
    destruct (Z_lt_le_dec ms (2 ^ 46)) as [Hs|Hs].
    + destruct (int_truediv_tenths ms 60000 ltac:(lia) eq_refl ltac:(lia))
        as (m & e & -> & Hn).
      exists (tenths m e). cbn [bind fmt1]. pose proof (tenths_nonneg m e).
      split; [assumption|split; [lia|reflexivity]].
    + destruct (int_truediv_finite ms 60000) as [->|(m & e & ->)]; try lia.
      * exists 0. cbn [bind]. split; [lia|split; [lia|reflexivity]].
      * exists (tenths m e). cbn [bind fmt1]. pose proof (tenths_nonneg m e).
        split; [assumption|split; [lia|reflexivity]].
  - repeat split; reflexivity.
Qed.

End Durations.

(** ** The renderer *)

Section RendererClaims.
Import AgentTracker.
Context {R : Runtime}.
Variable C : Colors.

Lemma agent_context_frame event_type agent_id parent_agent_id now tracker :
  is_type event_type "agent_loop_started" = false ->
  fst (agent_context event_type agent_id parent_agent_id now tracker) = tracker.
Proof.
  intros H. unfold agent_context. rewrite H. cbn [andb].
  destruct (truthy agent_id); [|reflexivity].
  destruct (as_key agent_id); reflexivity.
Qed.

(** Reading the tracker is within the embedding, whatever the agent id is. *)
Lemma agent_context_read event_type agent_id parent_agent_id now tracker :
  is_type event_type "agent_loop_started" = false ->
  snd (agent_context event_type agent_id parent_agent_id now tracker) <> Unmodelled.
Proof.
  intros H. unfold agent_context. rewrite H. cbn [andb].
  destruct (truthy agent_id); [|discriminate].
  destruct (as_key agent_id); discriminate.
Qed.

Lemma as_key_Key v a : as_key v = Key a -> v = JStr a.
Proof.
  destruct v as [|b|z|f|s|l|d]; cbn [as_key].
  - discriminate.
  - destruct (truthy (JBool b)); discriminate.
  - destruct (truthy (JInt z)); discriminate.
  - destruct (truthy (JFloat f)); discriminate.
  - now intros [= ->].
  - destruct l; [destruct (truthy (JList []))|]; discriminate.
  - destruct d; [destruct (truthy (JDict []))|]; discriminate.
Qed.

Lemma agent_context_cases event_type agent_id parent_agent_id now tracker :
  fst (agent_context event_type agent_id parent_agent_id now tracker) = tracker \/
  exists a,
    is_type event_type "agent_loop_started" = true /\
    agent_id = JStr a /\ a <> "" /\
    fst (agent_context event_type agent_id parent_agent_id now tracker) =
      start_agent tracker a (parent_arg (as_key parent_agent_id)) now.
Proof.
  unfold agent_context.
  destruct (is_type event_type "agent_loop_started") eqn:Et; cbn [andb].
  - destruct (truthy agent_id) eqn:Ea; [|now left].
    destruct (as_key agent_id) as [|a| |] eqn:Ek;
      destruct (as_key parent_agent_id) eqn:Ep; try (now left);
      right; exists a; apply as_key_Key in Ek; subst agent_id;
      cbn [truthy] in Ea; apply negb_true_iff, String.eqb_neq in Ea; auto.
  - left. destruct (truthy agent_id); [|reflexivity].
    destruct (as_key agent_id); reflexivity.
Qed.

Lemma format_event_tracker now now' ev tracker :
  fst (format_event C now now' ev tracker) = tracker \/
  fst (format_event C now now' ev tracker) =
    fst (agent_context (event_type ev) (field ev "agentId")
           (field ev "parentAgentId") now' tracker).
Proof.
  unfold format_event.
  destruct (format_timestamp (event_timestamp now ev)); [|left; reflexivity].
  destruct (agent_context _ _ _ _ _) as [tracker' [[p i]|e|]]; right; reflexivity.
Qed.

Lemma format_event_modelled now now' ev tracker :
  snd (agent_context (event_type ev) (field ev "agentId")
         (field ev "parentAgentId") now' tracker) <> Unmodelled ->
  snd (format_event C now now' ev tracker) <> Unmodelled.
Proof.
  unfold format_event.
  destruct (format_timestamp (event_timestamp now ev)); [|discriminate].
  destruct (agent_context _ _ _ _ _) as [tracker' [[p i]|e|]]; cbn [snd];
    [|discriminate|congruence].
  intros _. unfold finish. destruct (render _ _ _ _ _); discriminate.
Qed.

(** C6: rendering an event whose type is not the agent-started one leaves
    the tracker as it was, whatever the event holds, and stays within the
    embedding; and when rendering an event changes the tracker, the event
    is an agent-started one that names its agent by a non-empty string, and
    the change is the registration of that agent.  The second part covers
    the events the embedding renders: an agent-started event whose agent id
    or parent id is a number or [true] is outside it. *)
Theorem only_agent_started_registers (now now' : float) (ev : event) (tracker : t) :
  (is_type (event_type ev) "agent_loop_started" = false ->
   fst (format_event C now now' ev tracker) = tracker /\
   snd (format_event C now now' ev tracker) <> Unmodelled) /\
  (snd (format_event C now now' ev tracker) <> Unmodelled ->
   fst (format_event C now now' ev tracker) = tracker \/
   exists a,
     is_type (event_type ev) "agent_loop_started" = true /\
     field ev "agentId" = JStr a /\ a <> "" /\
     fst (format_event C now now' ev tracker) =
       start_agent tracker a (parent_arg (as_key (field ev "parentAgentId"))) now').
Proof.
  split.
  - intros H. split.
    + destruct (format_event_tracker now now' ev tracker) as [E|E];
        [assumption|]. rewrite E. now apply agent_context_frame.
    + now apply format_event_modelled, agent_context_read.
  - intros _.
    destruct (format_event_tracker now now' ev tracker) as [E|E]; [now left|].
    rewrite E.
    destruct (agent_context_cases (event_type ev) (field ev "agentId")
                (field ev "parentAgentId") now' tracker)
      as [H|(a & H1 & H2 & H3 & H4)].
    + now left.
    + right. exists a. auto.
Qed.

Lemma is_type_true event_type name :
  is_type event_type name = true -> event_type = JStr name.
Proof.
  destruct event_type; try discriminate. cbn [is_type].
  intros H. apply String.eqb_eq in H. now subst.
Qed.

(** C8: an event of an unknown type, with a timestamp that can be shown and
    an agent id that is a string or absent, is rendered as one line with the
    type followed by one line for each field other than [type] and
    [timestamp], in the order of the event; the tracker is not changed. *)
Theorem unknown_type_dumps_fields (now now' : float) (ev : event) (tracker : t)
    (ts : string) :
  recognized (event_type ev) = false ->
  string_or_absent (field ev "agentId") = true ->
  format_timestamp (event_timestamp now ev) = Ok ts ->
  let others :=
    filter (fun '(key, _) =>
              negb ((key =? "type")%string || (key =? "timestamp")%string)) ev in
  let lines :=
    (OKCYAN C ++ "[" ++ ts ++ "] " ++ py_str (event_type ev) ++ ENDC C)
    :: map (fun '(key, value) => "  " ++ key ++ ": " ++ py_str value) others in
  format_event C now now' ev tracker = (tracker, Done (join newline lines)) /\
  List.length lines = S (List.length others).
Proof.
  intros Hrec Hid Hts others lines. split.
  2:{ subst lines. cbn [List.length]. now rewrite length_map. }
  unfold recognized, known_types in Hrec. cbn [existsb] in Hrec.
  repeat (apply orb_false_elim in Hrec as [?H Hrec]).
  unfold format_event. rewrite Hts.
  assert (Hctx : exists p i,
            agent_context (event_type ev) (field ev "agentId")
              (field ev "parentAgentId") now' tracker = (tracker, Done (p, i))).
  { unfold agent_context. rewrite H1. cbn [andb].
    unfold string_or_absent in Hid.
    destruct (truthy (field ev "agentId")); [|eauto].
    destruct (as_key (field ev "agentId")); try discriminate; eauto. }
  destruct Hctx as (p & i & ->).
  unfold render. rewrite H, H0, H1, H2, H3, H4, H5, H6, H7, H8, H9.
  reflexivity.
Qed.

(** C10: an agent-started event whose agent id is absent or empty
    registers nothing, and its lines carry an empty prefix and no
    indentation. *)
Theorem started_without_agent_id (now now' : float) (ev : event) (tracker : t)
    (ts max_duration : string) :
  is_type (event_type ev) "agent_loop_started" = true ->
  truthy (field ev "agentId") = false ->
  format_timestamp (event_timestamp now ev) = Ok ts ->
  format_duration (get_default ev "maxDurationMs" (JInt 0)) = Ok max_duration ->
  let indent := "" in
  let agent_prefix := "" in
  format_event C now now' ev tracker =
    (tracker,
     Done (join newline
       [ indent ++ HEADER C ++ "[" ++ ts ++ "] " ++ agent_prefix ++ " "
           ++ BOLD C ++ "Started" ++ ENDC C;
         indent ++ "  Model: " ++ OKCYAN C ++ py_str (field ev "model") ++ ENDC C;
         indent ++ "  Provider: " ++ py_str (field ev "providerType");
         indent ++ "  Max steps: " ++ py_str (field ev "maxSteps");
         indent ++ "  Max duration: " ++ max_duration ])).
Proof.
  intros Ht Hid Hts Hmd indent agent_prefix.
  unfold format_event. rewrite Hts.
  unfold agent_context. rewrite Ht, Hid. cbn [andb].
  apply is_type_true in Ht. rewrite Ht.
  unfold render. cbn [is_type String.eqb Ascii.eqb Bool.eqb].
  rewrite Hmd. reflexivity.
Qed.

(** C7: an agent-started event and the step-started event that follows it
    for the same agent id are rendered with the same prefix and the same
    indentation, those of the agent after its registration. *)
Theorem same_prefix_after_start (now1 now1' now2 now2' : float) (ev1 ev2 : event)
    (tracker : t) (a ts1 ts2 max_duration : string) :
  is_type (event_type ev1) "agent_loop_started" = true ->
  is_type (event_type ev2) "agent_loop_step_started" = true ->
  field ev1 "agentId" = JStr a ->
  field ev2 "agentId" = JStr a ->
  string_or_absent (field ev1 "parentAgentId") = true ->
  format_timestamp (event_timestamp now1 ev1) = Ok ts1 ->
  format_timestamp (event_timestamp now2 ev2) = Ok ts2 ->
  format_duration (get_default ev1 "maxDurationMs" (JInt 0)) = Ok max_duration ->
  exists (agent_prefix indent : string) (tracker' : t),
    format_event C now1 now1' ev1 tracker =
      (tracker',
       Done (join newline
         [ indent ++ HEADER C ++ "[" ++ ts1 ++ "] " ++ agent_prefix ++ " "
             ++ BOLD C ++ "Started" ++ ENDC C;
           indent ++ "  Model: " ++ OKCYAN C ++ py_str (field ev1 "model") ++ ENDC C;
           indent ++ "  Provider: " ++ py_str (field ev1 "providerType");
           indent ++ "  Max steps: " ++ py_str (field ev1 "maxSteps");
           indent ++ "  Max duration: " ++ max_duration ])) /\
    format_event C now2 now2' ev2 tracker' =
      (tracker',
       Done (indent ++ OKBLUE C ++ "[" ++ ts2 ++ "] " ++ agent_prefix ++ " Step "
             ++ BOLD C ++ py_str (get_default ev2 "step" (JInt 0)) ++ "/"
             ++ py_str (get_default ev2 "maxSteps" (JInt 0)) ++ ENDC C
             ++ " (" ++ py_str (get_default ev2 "progress" (JInt 0)) ++ "%)")) /\
    (a <> "" ->
     tracker' = start_agent tracker a
                  (parent_arg (as_key (field ev1 "parentAgentId"))) now1' /\
     agent_prefix = get_agent_prefix tracker' a /\
     indent = get_indent tracker' a).
Proof.
  intros Ht1 Ht2 Ha1 Ha2 Hp Hts1 Hts2 Hmd.
  apply is_type_true in Ht1, Ht2.
  unfold format_event. rewrite Hts1, Hts2, Ha1, Ha2, Ht1, Ht2.
  unfold agent_context. cbn [is_type String.eqb Ascii.eqb Bool.eqb andb truthy as_key].
  destruct (String.eqb_spec a "") as [->|Hne]; cbn [negb].
  - exists "", "", tracker. unfold render.
    cbn [is_type String.eqb Ascii.eqb Bool.eqb]. rewrite Hmd.
    repeat split; try reflexivity; congruence.
  - unfold string_or_absent in Hp.
    set (tracker' := start_agent tracker a
                       (parent_arg (as_key (field ev1 "parentAgentId"))) now1').
    exists (get_agent_prefix tracker' a), (get_indent tracker' a), tracker'.
    unfold render. cbn [is_type String.eqb Ascii.eqb Bool.eqb]. rewrite Hmd.
    destruct (as_key (field ev1 "parentAgentId")); try discriminate;
      repeat split; reflexivity.
Qed.

End RendererClaims.

(** ** Missing fields *)

Section MissingFields.
Import AgentTracker.
Context {R : Runtime}.
Variable C : Colors.

Lemma join_strs_total l : forall acc,
  forallb is_str l = true ->
  exists text,
    (fix strs (l : list json) (acc : list string) : result string :=
       match l with
       | [] => Ok (join ", " (rev acc))
       | JStr s :: rest => strs rest (s :: acc)
       | _ => Raise TypeError
       end) l acc = Ok text.
Proof.
  induction l as [|v l IH]; intros acc H; [eauto|].
  cbn [forallb] in H. apply andb_prop in H as [Hv Hl].
  destruct v; try discriminate. now apply IH.
Qed.

Lemma join_features_total v :
  features_ok v = true -> exists text, join_features v = Ok text.
Proof.
  destruct v; cbn [features_ok]; try discriminate; intros H; cbn [join_features];
    eauto using join_strs_total.
Qed.

(** A well-typed event is rendered, whatever fields it lacks. *)
Lemma render_total ev ts indent agent_prefix :
  well_typed ev = true ->
  exists lines, render C ev (event_type ev) ts indent agent_prefix = Ok lines.
Proof.
  unfold well_typed. intros H.
  repeat (apply andb_prop in H as [H ?Hw]).
  destruct (format_duration_total _ Hw1) as [d1 Hd1].
  destruct (format_duration_total _ Hw0) as [d2 Hd2].
  unfold render. rewrite Hd1, Hd2. cbn [bind].
  destruct (is_type (event_type ev) "connected").
  { cbv zeta. unfold server_info_ok in Hw.
    destruct (get_default ev "serverInfo" (JDict [])) as [|b|z|f|s|l|d];
      try (apply negb_true_iff in Hw; rewrite Hw; eauto).
    destruct (truthy (JDict d)); [|eauto].
    destruct (join_features_total _ Hw) as [f ->]. cbn [bind]. eauto. }
  repeat match goal with
         | |- exists _, (if ?c then _ else _) = _ => destruct c
         end; eauto.
Qed.

(** Registration, prefix and indent of an event whose ids are strings or
    absent. *)
Lemma agent_context_strings event_type agent_id parent_agent_id now tracker :
  string_or_absent agent_id = true -> string_or_absent parent_agent_id = true ->
  exists tracker' p i,
    agent_context event_type agent_id parent_agent_id now tracker
    = (tracker', Done (p, i)) /\
    (truthy agent_id = false -> tracker' = tracker /\ p = "" /\ i = "") /\
    (is_type event_type "agent_loop_started" = false -> tracker' = tracker) /\
    (forall a, agent_id = JStr a -> a <> "" ->
       p = get_agent_prefix tracker' a /\ i = get_indent tracker' a).
Proof.
  unfold string_or_absent, agent_context. intros Ha Hp.
  assert (Hfalsy : truthy agent_id = false ->
            forall a, agent_id = JStr a -> a <> "" ->
              "" = get_agent_prefix tracker a /\ "" = get_indent tracker a).
  { intros Et a -> Hne. cbn [truthy] in Et.
    apply negb_false_iff, String.eqb_eq in Et. contradiction. }
  destruct (is_type event_type "agent_loop_started"); cbn [andb];
    destruct (truthy agent_id) eqn:Et.
  - destruct (as_key agent_id) as [|a| |] eqn:Ea; try discriminate.
    + destruct agent_id as [|b|z|f|s|l|d]; cbn [as_key] in Ea;
        try (rewrite Et in Ea); try discriminate;
        [destruct l|destruct d]; discriminate.
    + apply as_key_Key in Ea. subst agent_id.
      destruct (as_key parent_agent_id) eqn:Ek; try discriminate;
        (eexists; eexists; eexists; split; [reflexivity|];
         split; [discriminate|]; split; [discriminate|];
         intros a' [= <-] _; split; reflexivity).
  - exists tracker, "", "".
    split; [reflexivity|]. split; [auto|]. split; [auto|]. now apply Hfalsy.
  - destruct (as_key agent_id) as [|a| |] eqn:Ea; try discriminate.
    + exists tracker, "", "".
      split; [reflexivity|]. split; [auto|]. split; [auto|].
      intros a ->. discriminate.
    + apply as_key_Key in Ea. subst agent_id.
      exists tracker, (get_agent_prefix tracker a), (get_indent tracker a).
      split; [reflexivity|]. split; [discriminate|]. split; [auto|].
      now intros a' [= <-] _.
  - exists tracker, "", "".
    split; [reflexivity|]. split; [auto|]. split; [auto|]. now apply Hfalsy.
Qed.

Lemma unknown_agent_num tracker a :
  get (agents tracker) a = None -> _get_agent_num tracker a = 0.
Proof.
  intros H. unfold _get_agent_num.
  rewrite index_sorted_none; [reflexivity|]. now apply get_none_keys.
Qed.

(** A duration is shown as [format_duration] renders the field or, without
    it, the zero of [event.get]. *)
Lemma duration_shown_get ev k :
  format_duration (get_default ev k (JInt 0)) = duration_shown ev k.
Proof.
  unfold duration_shown, get_default. destruct (get ev k); reflexivity.
Qed.

Ltac fields :=
  unfold shown, optional_line, status_shown, field, get_default, append;
  repeat match goal with
         | |- context [match get ?e ?k with _ => _ end] => destruct (get e k)
         end;
  cbn [truthy negb String.eqb];
  repeat match goal with
         | |- context [if truthy ?v then _ else _] => destruct (truthy v)
         end;
  reflexivity.

(** C5: an unknown agent has the placeholder prefix, no indentation and the
    ordinal zero.  An event whose fields, where present, hold values of
    their types is rendered without an exception whatever fields it lacks,
    and the lines of the seven kinds of agent events show, for a field that
    is absent: the current instant for the timestamp; no prefix and no
    indentation for the agent id; zero milliseconds for a duration; zero
    for the step, the step budget of a step, the steps, the tool calls, the
    progress and the token counts; "completion" for the termination reason;
    "unknown" for the tool name; success for the status of a tool; no line
    for the estimated tokens, the previews and the tool id.  The model, the
    provider and the step budget of an agent-started event have no
    fallback: absent, they are shown as None. *)
Theorem rendering_tolerates_missing_fields (now now' : float) (ev : event)
    (tracker : t) :
  (forall a,
     get (agents tracker) a = None ->
     get_agent_prefix tracker a = "[Agent]" /\
     get_indent tracker a = "" /\
     _get_agent_num tracker a = 0) /\
  (forall ts,
     loadable (JDict ev) = true ->
     well_typed ev = true ->
     format_timestamp (event_timestamp now ev) = Ok ts ->
     exists (tracker' : t) (agent_prefix indent duration max_duration : string),
       (exists text, format_event C now now' ev tracker = (tracker', Done text)) /\
       (get ev "timestamp" = None ->
        format_timestamp (JFloat (fmul now (float_of_Z 1000))) = Ok ts) /\
       (get ev "agentId" = None ->
        tracker' = tracker /\ agent_prefix = "" /\ indent = "") /\
       (is_type (event_type ev) "agent_loop_started" = false -> tracker' = tracker) /\
       (forall a, field ev "agentId" = JStr a -> a <> "" ->
          agent_prefix = get_agent_prefix tracker' a /\
          indent = get_indent tracker' a) /\
       duration_shown ev "durationMs" = Ok duration /\
       duration_shown ev "maxDurationMs" = Ok max_duration /\
       (is_type (event_type ev) "agent_loop_started" = true ->
        format_event C now now' ev tracker =
          (tracker',
           Done (join newline
             [ indent ++ HEADER C ++ "[" ++ ts ++ "] " ++ agent_prefix ++ " "
                 ++ BOLD C ++ "Started" ++ ENDC C;
               indent ++ "  Model: " ++ OKCYAN C ++ shown ev "model" "None" ++ ENDC C;
               indent ++ "  Provider: " ++ shown ev "providerType" "None";
               indent ++ "  Max steps: " ++ shown ev "maxSteps" "None";
               indent ++ "  Max duration: " ++ max_duration ]))) /\
       (is_type (event_type ev) "agent_loop_step_started" = true ->
        format_event C now now' ev tracker =
          (tracker',
           Done (indent ++ OKBLUE C ++ "[" ++ ts ++ "] " ++ agent_prefix ++ " Step "
                 ++ BOLD C ++ shown ev "step" "0" ++ "/" ++ shown ev "maxSteps" "0"
                 ++ ENDC C ++ " (" ++ shown ev "progress" "0" ++ "%)"))) /\
       (is_type (event_type ev) "model_invocation_started" = true ->
        format_event C now now' ev tracker =
          (tracker',
           Done (join newline
             (List.app
                [ indent ++ OKCYAN C ++ "[" ++ ts ++ "] " ++ agent_prefix
                    ++ " Calling model..." ++ ENDC C;
                  indent ++ "  Model: " ++ shown ev "model" "None";
                  indent ++ "  Provider: " ++ shown ev "providerType" "None" ]
                (optional_line ev "estimatedTokens" indent "  Estimated tokens: ~"))))) /\
       (is_type (event_type ev) "model_invocation_completed" = true ->
        format_event C now now' ev tracker =
          (tracker',
           Done (join newline
             [ indent ++ OKGREEN C ++ "[" ++ ts ++ "] " ++ agent_prefix
                 ++ " Model response received" ++ ENDC C;
               indent ++ "  Duration: " ++ duration;
               indent ++ "  Tokens: " ++ shown ev "inputTokens" "0" ++ " in → "
                 ++ shown ev "outputTokens" "0" ++ " out" ]))) /\
       (is_type (event_type ev) "tool_execution_started" = true ->
        format_event C now now' ev tracker =
          (tracker',
           Done (join newline
             (List.app
                [ indent ++ WARNING C ++ "[" ++ ts ++ "] " ++ agent_prefix
                    ++ " Executing tool: " ++ BOLD C ++ shown ev "toolName" "unknown"
                    ++ ENDC C ]
                (List.app
                   (optional_line ev "requestPreview" indent "  Request: ")
                   (optional_line ev "toolId" indent "  ID: ")))))) /\
       (is_type (event_type ev) "tool_execution_completed" = true ->
        format_event C now now' ev tracker =
          (tracker',
           Done (join newline
             (List.app
                [ indent ++ OKCYAN C ++ "[" ++ ts ++ "] " ++ agent_prefix ++ " Tool "
                    ++ shown ev "toolName" "unknown" ++ ": " ++ status_shown C ev
                    ++ ENDC C;
                  indent ++ "  Duration: " ++ duration ]
                (optional_line ev "responsePreview" indent "  Response: "))))) /\
       (is_type (event_type ev) "agent_loop_completed" = true ->
        format_event C now now' ev tracker =
          (tracker',
           Done (join newline
             [ indent ++ OKGREEN C ++ BOLD C ++ "[" ++ ts ++ "] " ++ agent_prefix
                 ++ " Completed" ++ ENDC C;
               indent ++ "  Duration: " ++ duration;
               indent ++ "  Steps: " ++ shown ev "steps" "0";
               indent ++ "  Tool calls: " ++ shown ev "toolCallsExecuted" "0";
               indent ++ "  Reason: " ++ shown ev "terminationReason" "completion" ])))).
Proof.
  split.
  { intros a Ha. unfold get_agent_prefix, get_indent. rewrite Ha.
    repeat split. now apply unknown_agent_num. }
  intros ts _ Hw Hts.
  pose proof Hw as Hw'. unfold well_typed in Hw'.
  repeat (apply andb_prop in Hw' as [Hw' ?Hx]).
  destruct (agent_context_strings (event_type ev) (field ev "agentId")
              (field ev "parentAgentId") now' tracker Hw' Hx2)
    as (tracker' & p & i & Hctx & Habsent & Hframe & Hnamed).
  destruct (format_duration_total _ Hx1) as [duration Hd].
  destruct (format_duration_total _ Hx0) as [max_duration Hmd].
  assert (Hfe : format_event C now now' ev tracker
                = (tracker', finish (render C ev (event_type ev) ts i p))).
  { unfold format_event. now rewrite Hts, Hctx. }
  exists tracker', p, i, duration, max_duration.
  split; [|split; [|split; [|split; [|split; [|split; [|split]]]]]].
  - rewrite Hfe. destruct (render_total ev ts i p Hw) as [lines ->]. cbn. eauto.
  - intros Hk. unfold event_timestamp, get_default in Hts. now rewrite Hk in Hts.
  - intros Hk. apply Habsent. unfold field, get_default. now rewrite Hk.
  - exact Hframe.
  - exact Hnamed.
  - now rewrite <- duration_shown_get.
  - now rewrite <- duration_shown_get.
  - repeat split; intros Ht; rewrite Hfe; apply is_type_true in Ht; rewrite Ht;
      unfold render; cbn [is_type String.eqb Ascii.eqb Bool.eqb];
      rewrite ?Hd, ?Hmd; cbn [bind finish]; fields.
Qed.

End MissingFields.

(* ===================================================================== *)
(** * The properties on the sample data *)
(* ===================================================================== *)

Section OnSamples.
Import AgentTracker Lineage Sample.

Example sample_prefixes :
  map (get_agent_prefix (run calls init)) ["A"; "B"; "C"; "D"; "E"]
  = ["[Agent #2]"; "[Agent #3 → #2]"; "[Agent #4 → #0]"; "[Agent #1]"; "[Agent]"].
Proof. reflexivity. Qed.

Example sample_indents :
  map (get_indent (run calls init)) ["A"; "B"; "C"; "D"; "E"] = [""; "  "; ""; ""; ""].
Proof. reflexivity. Qed.

Example sample_rendering :
  let '(tracker, first) :=
    format_event no_color (at_second 1700000000) (at_second 1700000000) started init in
  let '(tracker', second) :=
    format_event no_color (at_second 1700000001) (at_second 1700000001)
      child_started tracker in
  (first, second, snd (format_event no_color (at_second 1700000002)
                         (at_second 1700000002) step tracker'))
  = (Done ("[22:13:20] [Agent #1] Started" ++ newline ++
           "  Model: m1" ++ newline ++
           "  Provider: None" ++ newline ++
           "  Max steps: 8" ++ newline ++
           "  Max duration: 2.1m"),
     Done ("  [22:13:20] [Agent #2 → #1] Started" ++ newline ++
           "    Model: None" ++ newline ++
           "    Provider: None" ++ newline ++
           "    Max steps: None" ++ newline ++
           "    Max duration: 0ms"),
     Done "  [22:13:20] [Agent #2 → #1] Step 1/8 (12%)").
Proof. vm_compute. reflexivity. Qed.

Lemma prefix_shows_rank_witness :
  get_agent_prefix (run calls init) "C" = tag calls "C" /\
  _get_agent_num (run calls init) "C" = ordinal calls "C".
Proof.
  apply prefix_shows_rank.
  - repeat constructor; cbn; intuition discriminate.
  - repeat constructor.
Defined.

(** C2, as stated, fails on an int whose quotient by 60000 is beyond the
    floats: the division raises. *)
Lemma format_duration_overflow :
  format_duration (JInt (60000 * 2 ^ 1024)) = Raise OverflowError.
Proof. vm_compute. reflexivity. Qed.

Lemma format_duration_policy_witness :
  exists n, 0 <= n /\ (125000 < 2 ^ 46 -> Z.abs (6000 * n - 125000) <= 3000) /\
    format_duration (JInt 125000) = Ok (one_decimal n ++ "m").
Proof.
  refine (proj1 (proj2 (proj2 (format_duration_policy 125000 _))) _).
  - split; [lia|reflexivity].
  - lia.
Defined.

Lemma depth_fixed_at_registration_witness :
  depth_of (start_agent with_A "B" (Some "A") (at_second 200)) "B" = Some 1%nat /\
  depth_of (run later (start_agent with_A "B" (Some "A") (at_second 200))) "B"
    = Some 1%nat.
Proof.
  apply (depth_fixed_at_registration with_A "B" (Some "A") (at_second 200) later).
  repeat constructor; discriminate.
Defined.

Lemma indent_two_spaces_per_level_witness :
  String.length (get_indent (run calls init) "B") = 2%nat.
Proof.
  exact (proj1 (proj2 (indent_two_spaces_per_level (run calls init) "B"))).
Defined.

(** C9, as stated, fails: a second registration of the same id writes the
    clock reading of that moment over the first. *)
Lemma startTime_overwritten :
  startTime_of with_A "A" = Some (at_second 100) /\
  startTime_of (start_agent with_A "A" None (at_second 200)) "A"
    = Some (at_second 200) /\
  at_second 200 <> at_second 100.
Proof. repeat split. discriminate. Qed.

Lemma startTime_kept_witness :
  startTime_of (run later_B (start_agent init "A" None (at_second 100))) "A"
    = Some (at_second 100).
Proof. apply startTime_kept. repeat constructor; discriminate. Defined.

(** C5, as stated, fails on one step count: an agent-started event without
    [maxSteps] shows None where the same event with [maxSteps] set to zero
    shows 0. *)
Lemma missing_maxSteps_is_not_zero :
  get anonymous_started "maxSteps" = None /\
  format_event no_color (at_second 1700000000) (at_second 1700000000)
    anonymous_started init
  = (init,
     Done (join newline
       [ "[22:13:20]  Started"; "  Model: m1"; "  Provider: None";
         "  Max steps: None"; "  Max duration: 0ms" ])) /\
  format_event no_color (at_second 1700000000) (at_second 1700000000)
    (set anonymous_started "maxSteps" (JInt 0)) init
  = (init,
     Done (join newline
       [ "[22:13:20]  Started"; "  Model: m1"; "  Provider: None";
         "  Max steps: 0"; "  Max duration: 0ms" ])) /\
  format_event no_color (at_second 1700000000) (at_second 1700000000)
    anonymous_started init
  <> format_event no_color (at_second 1700000000) (at_second 1700000000)
       (set anonymous_started "maxSteps" (JInt 0)) init.
Proof. repeat split. vm_compute. discriminate. Qed.

Lemma rendering_tolerates_missing_fields_witness :
  format_event no_color (at_second 1700000000) (at_second 1700000000) completed init
  = (init,
     Done (join newline
       [ "[22:13:20]  Completed"; "  Duration: 0ms"; "  Steps: 0";
         "  Tool calls: 0"; "  Reason: completion" ])).
Proof.
  assert (Hl : loadable (JDict completed) = true) by reflexivity.
  assert (Hw : well_typed completed = true) by reflexivity.
  assert (Hts : format_timestamp (event_timestamp (at_second 1700000000) completed)
                = Ok "22:13:20") by reflexivity.
  destruct (proj2 (rendering_tolerates_missing_fields no_color (at_second 1700000000)
                     (at_second 1700000000) completed init)
              "22:13:20" Hl Hw Hts)
    as (tracker' & p & i & d & md & _ & _ & Hid & _ & _ & Hd & _
        & _ & _ & _ & _ & _ & _ & Hcompleted).
  destruct (Hid eq_refl) as (-> & -> & ->).
  injection Hd as <-.
  exact (Hcompleted eq_refl).
Defined.

Lemma only_agent_started_registers_witness :
  (fst (format_event no_color (at_second 1700000000) (at_second 1700000000)
          step (run calls init)) = run calls init /\
   snd (format_event no_color (at_second 1700000000) (at_second 1700000000)
          step (run calls init)) <> Unmodelled) /\
  (fst (format_event no_color (at_second 1700000000) (at_second 1700000000)
          step (run calls init)) = run calls init \/
   exists a,
     is_type (event_type step) "agent_loop_started" = true /\
     field step "agentId" = JStr a /\ a <> "" /\
     fst (format_event no_color (at_second 1700000000) (at_second 1700000000)
            step (run calls init)) =
       start_agent (run calls init) a
         (parent_arg (as_key (field step "parentAgentId"))) (at_second 1700000000)).
Proof.
  destruct (only_agent_started_registers no_color (at_second 1700000000)
              (at_second 1700000000) step (run calls init)) as [Hread Hchange].
  split.
  - apply Hread. reflexivity.
  - apply Hchange. vm_compute. discriminate.
Defined.

Lemma same_prefix_after_start_witness :
  exists (agent_prefix indent : string) (tracker' : t),
    format_event no_color (at_second 1700000000) (at_second 1700000000)
      child_started (run calls init) =
      (tracker',
       Done (join newline
         [ indent ++ "[22:13:20] " ++ agent_prefix ++ " Started";
           indent ++ "  Model: None";
           indent ++ "  Provider: None";
           indent ++ "  Max steps: None";
           indent ++ "  Max duration: 0ms" ])) /\
    format_event no_color (at_second 1700000001) (at_second 1700000001)
      step tracker' =
      (tracker', Done (indent ++ "[22:13:20] " ++ agent_prefix ++ " Step 1/8 (12%)")) /\
    ("B" <> "" ->
     tracker' = start_agent (run calls init) "B" (Some "A") (at_second 1700000000) /\
     agent_prefix = get_agent_prefix tracker' "B" /\
     indent = get_indent tracker' "B").
Proof.
  apply (same_prefix_after_start no_color (at_second 1700000000) (at_second 1700000000)
           (at_second 1700000001) (at_second 1700000001) child_started step
           (run calls init) "B" "22:13:20" "22:13:20" "0ms"); reflexivity.
Defined.

Lemma unknown_type_dumps_fields_witness :
  format_event no_color (at_second 1700000000) (at_second 1700000000) custom init
  = (init, Done (join newline ["[22:13:20] custom_x"; "  foo: bar"; "  baz: 3"])) /\
  List.length ["[22:13:20] custom_x"; "  foo: bar"; "  baz: 3"] = 3%nat.
Proof.
  apply (unknown_type_dumps_fields no_color (at_second 1700000000)
           (at_second 1700000000) custom init "22:13:20"); reflexivity.
Defined.

Lemma started_without_agent_id_witness :
  format_event no_color (at_second 1700000000) (at_second 1700000000)
    anonymous_started (run calls init)
  = (run calls init,
     Done (join newline
       [ "[22:13:20]  Started"; "  Model: m1"; "  Provider: None";
         "  Max steps: None"; "  Max duration: 0ms" ])).
Proof.
  apply (started_without_agent_id no_color (at_second 1700000000)
           (at_second 1700000000) anonymous_started (run calls init)
           "22:13:20" "0ms"); reflexivity.
Defined.

End OnSamples.

(* ===================================================================== *)
(** * More on the tracker *)
(* ===================================================================== *)

Section TableFacts.
Import AgentTracker Lineage Table.

Lemma children_register tracker c p :
  children (register tracker c) p =
  if child_of p c
  then Some (match children tracker p with Some l => l | None => [] end
             ++ [call_id c])%list
  else children tracker p.
Proof.
  unfold children, register, start_agent, child_of. cbn [parent_children].
  destruct (call_parent c) as [q|]; [|reflexivity].
  destruct (given (Some q)); cbn [andb]; [|reflexivity].
  set (pc := if mem (parent_children tracker) q then parent_children tracker
             else set (parent_children tracker) q []).
  assert (Hq : get pc q = Some match get (parent_children tracker) q with
                               | Some l => l | None => [] end).
  { subst pc. unfold mem. destruct (get (parent_children tracker) q) eqn:E;
      [assumption|apply get_set_same]. }
  assert (Hp : q <> p -> get pc p = get (parent_children tracker) p).
  { intros Hne. subst pc. destruct (mem (parent_children tracker) q);
      [reflexivity|now apply get_set_other]. }
  rewrite Hq.
  destruct (String.eqb_spec q p) as [->|Hne].
  - now rewrite get_set_same.
  - rewrite get_set_other by assumption. now apply Hp.
Qed.

Lemma run_snoc calls c tracker : run (calls ++ [c]) tracker = register (run calls tracker) c.
Proof. now rewrite run_app. Qed.

Lemma children_run calls p :
  children (run calls init) p =
  match children_of calls p with
  | [] => None
  | l => Some l
  end.
Proof.
  induction calls as [|c calls IH] using rev_ind; [reflexivity|].
  rewrite run_snoc, children_register, IH. unfold children_of.
  rewrite filter_app, map_app. cbn [filter].
  destruct (child_of p c); cbn [map].
  - destruct (map call_id (filter (child_of p) calls)); reflexivity.
  - now rewrite app_nil_r.
Qed.

(** X1: the children kept under a parent id are the agents registered with
    that parent, in the order of the calls, one entry per call (so an agent
    registered twice is listed twice); a parent without children has no
    entry. *)
Theorem children_in_registration_order (calls : list call) (p : string) :
  children (run calls init) p =
  match children_of calls p with
  | [] => None
  | l => Some l
  end.
Proof. apply children_run. Qed.

Lemma keys_set_known {V} (d : list (string * V)) k v :
  get d k <> None -> keys (set d k v) = keys d.
Proof.
  induction d as [|[k0 v0] d IH]; cbn [get set keys map fst]; [congruence|].
  destruct (String.eqb_spec k0 k) as [->|Hne]; [reflexivity|].
  intros H. cbn [map fst]. f_equal. now apply IH.
Qed.

Lemma keys_register tracker c :
  keys (agents (register tracker c)) =
  if mem (agents tracker) (call_id c) then keys (agents tracker)
  else (keys (agents tracker) ++ [call_id c])%list.
Proof.
  unfold register. rewrite agents_start_agent. unfold mem.
  destruct (get (agents tracker) (call_id c)) eqn:E.
  - apply keys_set_known. congruence.
  - rewrite set_new by assumption. unfold keys. now rewrite map_app.
Qed.

Lemma mem_keys {V} (d : list (string * V)) k : mem d k = true <-> In k (keys d).
Proof.
  unfold mem. pose proof (get_none_keys d k) as H.
  destruct (get d k); split; intros H'; try reflexivity; try discriminate.
  - destruct (in_dec string_dec k (keys d)) as [Hin|Hin]; [assumption|].
    apply H in Hin. discriminate.
  - exfalso. now apply (proj1 H).
Qed.

Lemma mem_register tracker c a :
  mem (agents (register tracker c)) a = (call_id c =? a)%string || mem (agents tracker) a.
Proof.
  unfold register, mem. rewrite agents_start_agent.
  destruct (String.eqb_spec (call_id c) a) as [<-|Hne].
  - now rewrite get_set_same.
  - now rewrite get_set_other.
Qed.

Lemma mem_run calls : forall tracker a,
  mem (agents (run calls tracker)) a =
  existsb (fun c => (call_id c =? a)%string) calls || mem (agents tracker) a.
Proof.
  induction calls as [|c calls IH]; intros tracker a; [reflexivity|].
  cbn [run fold_left existsb]. fold (run calls (register tracker c)).
  rewrite IH, mem_register.
  destruct (call_id c =? a)%string, (existsb _ calls), (mem (agents tracker) a); reflexivity.
Qed.

Lemma keys_run_nodup calls : NoDup (keys (agents (run calls init))).
Proof.
  induction calls as [|c calls IH] using rev_ind; [constructor|].
  rewrite run_snoc, keys_register.
  destruct (mem (agents (run calls init)) (call_id c)) eqn:E; [assumption|].
  apply NoDup_app; [assumption|repeat constructor; intros []|].
  intros a Ha [<-|[]]. apply mem_keys in Ha. congruence.
Qed.

(** X2: whatever is registered, and in whatever order, the ids of the table
    stay distinct, and every list of children is kept under a non-empty
    parent id, is not empty and names registered agents only. *)
Theorem tracker_stays_consistent (calls : list call) : consistent (run calls init).
Proof.
  split; [apply keys_run_nodup|].
  intros p l. rewrite children_run. unfold children_of.
  destruct (map call_id (filter (child_of p) calls)) as [|x l'] eqn:E; [discriminate|].
  intros [= <-].
  assert (Hin : forall a, In a (x :: l') ->
            exists c, In c calls /\ child_of p c = true /\ call_id c = a).
  { intros a Ha. rewrite <- E in Ha. apply in_map_iff in Ha as (c & <- & Hc).
    apply filter_In in Hc as [Hc1 Hc2]. eauto. }
  split; [|split; [discriminate|]].
  - destruct (Hin x (or_introl eq_refl)) as (c & _ & Hc & _).
    unfold child_of in Hc. destruct (call_parent c) as [q|]; [|discriminate].
    apply andb_prop in Hc as [Hg Hq]. apply String.eqb_eq in Hq. subst q.
    cbn [given] in Hg. intros ->. discriminate.
  - intros a Ha. destruct (Hin a Ha) as (c & Hc & _ & <-).
    rewrite mem_run. apply orb_true_intro. left.
    apply existsb_exists. exists c. split; [assumption|apply String.eqb_refl].
Qed.

End TableFacts.

Section Ordinals.
Import AgentTracker Lineage Table.

Lemma index_nth l a i :
  index l a = Some i -> 0 <= i < Z.of_nat (List.length l) /\ nth_error l (Z.to_nat i) = Some a.
Proof.
  revert i. induction l as [|y l IH]; intros i; cbn [index]; [discriminate|].
  destruct (String.eqb_spec y a) as [->|Hne].
  - intros [= <-]. cbn [List.length]. split; [lia|reflexivity].
  - destruct (index l a) as [j|]; [|discriminate]. intros [= <-].
    destruct (IH j eq_refl) as [Hj Hn]. cbn [List.length]. split; [lia|].
    replace (Z.to_nat (j + 1)) with (S (Z.to_nat j)) by lia. exact Hn.
Qed.

Lemma nth_index l : NoDup l -> forall i a,
  nth_error l i = Some a -> index l a = Some (Z.of_nat i).
Proof.
  induction 1 as [|y l Hy Hnd IH]; intros i a; [destruct i; discriminate|].
  destruct i as [|i]; cbn [nth_error index].
  - intros [= ->]. now rewrite String.eqb_refl.
  - intros Hn. destruct (String.eqb_spec y a) as [->|Hne].
    + exfalso. apply Hy. eapply nth_error_In; eassumption.
    + rewrite (IH i a Hn). f_equal. lia.
Qed.

Lemma sorted_length {A K} (key : A -> K) lt l :
  List.length (sorted key lt l) = List.length l.
Proof.
  induction l as [|x l IH]; [reflexivity|].
  cbn [sorted fold_right List.length]. fold (sorted key lt l). rewrite <- IH.
  generalize (sorted key lt l). intros s.
  induction s as [|y s IHs]; cbn [insert_sorted]; [reflexivity|].
  destruct (lt (key y) (key x)); cbn [List.length]; [now rewrite IHs|reflexivity].
Qed.

Lemma agent_num_cases tracker a :
  (mem (agents tracker) a = false /\ _get_agent_num tracker a = 0) \/
  (mem (agents tracker) a = true /\
   exists i, index (sorted (start_of tracker) flt (keys (agents tracker))) a = Some i /\
             _get_agent_num tracker a = i + 1).
Proof.
  unfold _get_agent_num.
  destruct (index _ a) as [i|] eqn:E.
  - right. split; [|eauto]. apply mem_keys.
    apply (Permutation_in _ (sorted_perm (start_of tracker) (keys (agents tracker)))).
    destruct (in_dec string_dec a (sorted (start_of tracker) flt (keys (agents tracker))))
      as [Hin|Hin]; [assumption|]. apply index_none in Hin. congruence.
  - left. split; [|reflexivity]. apply index_none in E.
    destruct (mem (agents tracker) a) eqn:M; [|reflexivity].
    exfalso. apply E.
    apply (Permutation_in _ (Permutation_sym
             (sorted_perm (start_of tracker) (keys (agents tracker))))).
    now apply mem_keys.
Qed.

(** X3: the numbers of the registered agents are 1 to n, each taken once:
    a registered agent has a number from 1 to n, two registered agents have
    different numbers, every number from 1 to n is the number of a
    registered agent, and only unknown ids have the number 0. *)
Theorem agent_numbers_are_one_to_n (calls : list call) :
  let tracker := run calls init in
  (forall a, mem (agents tracker) a = true ->
     1 <= _get_agent_num tracker a <= population tracker) /\
  (forall a b, mem (agents tracker) a = true -> mem (agents tracker) b = true ->
     _get_agent_num tracker a = _get_agent_num tracker b -> a = b) /\
  (forall k, 1 <= k <= population tracker ->
     exists a, mem (agents tracker) a = true /\ _get_agent_num tracker a = k) /\
  (forall a, _get_agent_num tracker a = 0 <-> mem (agents tracker) a = false).
Proof.
  intros tracker.
  pose proof (keys_run_nodup calls) as Hnd. fold tracker in Hnd.
  set (s := sorted (start_of tracker) flt (keys (agents tracker))).
  assert (Hlen : Z.of_nat (List.length s) = population tracker).
  { unfold s, population, keys. now rewrite sorted_length, length_map. }
  assert (Hnds : NoDup s).
  { apply (Permutation_NoDup (Permutation_sym
             (sorted_perm (start_of tracker) (keys (agents tracker)))) Hnd). }
  split; [|split; [|split]].
  - intros a Ha. destruct (agent_num_cases tracker a) as [[M _]|(_ & i & Hi & ->)];
      [congruence|]. fold s in Hi. apply index_nth in Hi as [Hi _]. lia.
  - intros a b Ha Hb E.
    destruct (agent_num_cases tracker a) as [[M _]|(_ & i & Hi & Ea)]; [congruence|].
    destruct (agent_num_cases tracker b) as [[M _]|(_ & j & Hj & Eb)]; [congruence|].
    fold s in Hi, Hj. assert (i = j) by lia. subst j.
    apply index_nth in Hi as [_ Hi]. apply index_nth in Hj as [_ Hj]. congruence.
  - intros k Hk.
    destruct (nth_error s (Z.to_nat (k - 1))) as [a|] eqn:E.
    + exists a. pose proof (nth_index s Hnds _ _ E) as Hi.
      split.
      * apply mem_keys.
        apply (Permutation_in _ (sorted_perm (start_of tracker) (keys (agents tracker)))).
        eapply nth_error_In; eassumption.
      * unfold _get_agent_num. fold s. rewrite Hi. lia.
    + apply nth_error_None in E. lia.
  - intros a. destruct (agent_num_cases tracker a) as [[M E]|(M & i & Hi & E)].
    + split; intros _; [apply M|apply E].
    + fold s in Hi. apply index_nth in Hi as [Hi _].
      split; [lia|congruence].
Qed.

Lemma registration_at before c after :
  NoDup (map call_id (before ++ c :: after)) ->
  registration (before ++ c :: after) (call_id c) = Some c /\
  registered_before (before ++ c :: after) (call_id c) = before.
Proof.
  unfold registration. induction before as [|b before IH]; cbn [app map find registered_before].
  - intros _. now rewrite String.eqb_refl.
  - intros Hnd. inversion Hnd as [|? ? Hb Hnd']; subst.
    destruct (String.eqb_spec (call_id b) (call_id c)) as [E|E].
    + exfalso. apply Hb. rewrite E, map_app. apply in_or_app. right. now left.
    + destruct (IH Hnd') as [H1 H2]. now rewrite H1, H2.
Qed.

Lemma count_app {A} (f : A -> bool) l l' : count f (l ++ l') = count f l + count f l'.
Proof. unfold count. rewrite filter_app, length_app. lia. Qed.

Lemma count_all {A} (f g : A -> bool) l :
  (forall x, In x l -> xorb (f x) (g x) = true) ->
  count f l + count g l = Z.of_nat (List.length l).
Proof.
  induction l as [|x l IH]; intros H; [reflexivity|].
  rewrite !count_cons. cbn [List.length].
  specialize (IH (fun y Hy => H y (or_intror Hy))).
  specialize (H x (or_introl eq_refl)).
  destruct (f x), (g x); try discriminate; lia.
Qed.

(** X4: when the ids are distinct and no clock reading is earlier than one
    taken before it, the number of an agent is its place in the order of
    registration. *)
Theorem numbers_follow_registration_order (before after : list call) (c : call) :
  NoDup (map call_id (before ++ c :: after)) ->
  Forall (fun c' => reading (call_now c') = true) (before ++ c :: after) ->
  clock_never_steps_back (before ++ c :: after) ->
  _get_agent_num (run (before ++ c :: after) init) (call_id c)
  = Z.of_nat (List.length before) + 1.
Proof.
  intros Hnd Hr Hmono.
  rewrite agent_num_ordinal by assumption. unfold ordinal.
  destruct (registration_at before c after Hnd) as [-> ->].
  rewrite count_app, count_cons, flt_irrefl.
  unfold clock_never_steps_back in Hmono.
  assert (Hafter : Forall (fun c' => flt (call_now c') (call_now c) = false) after).
  { clear - Hmono. induction before as [|b before IH]; cbn [app] in Hmono.
    - now inversion Hmono.
    - inversion Hmono; auto. }
  assert (Hbefore : Forall (fun b => flt (call_now c) (call_now b) = false) before).
  { clear - Hmono. induction before as [|b before IH]; [constructor|].
    cbn [app] in Hmono. inversion Hmono as [|? ? Hs Hb]; subst.
    constructor; [|auto].
    rewrite Forall_forall in Hb. apply Hb. apply in_or_app. right. now left. }
  rewrite (count_zero _ after Hafter).
  rewrite <- (count_all (fun c' => flt (call_now c') (call_now c))
                (fun c' => same_time (call_now c') (call_now c)) before); [lia|].
  intros b Hb. rewrite Forall_forall in Hbefore. unfold same_time.
  rewrite (Hbefore b Hb). destruct (flt (call_now b) (call_now c)); reflexivity.
Qed.

(** X5: one more agent, under a new id, gets the number that follows those
    of the agents whose start time is not later than its own, and moves the
    agents that started later up by one: the numbers of agents are not
    fixed. *)
Theorem later_registration_shifts_numbers (calls : list call) (c : call) :
  NoDup (map call_id (calls ++ [c])) ->
  Forall (fun c' => reading (call_now c') = true) (calls ++ [c]) ->
  _get_agent_num (run (calls ++ [c]) init) (call_id c)
  = 1 + count (fun c' => negb (flt (call_now c) (call_now c'))) calls /\
  forall c', In c' calls ->
    _get_agent_num (run (calls ++ [c]) init) (call_id c')
    = _get_agent_num (run calls init) (call_id c')
      + (if flt (call_now c) (call_now c') then 1 else 0).
Proof.
  intros Hnd Hr.
  assert (Hnd' : NoDup (map call_id calls)).
  { rewrite map_app in Hnd. now apply NoDup_app_remove_r in Hnd. }
  assert (Hr' : Forall (fun c' => reading (call_now c') = true) calls).
  { apply Forall_app in Hr. tauto. }
  assert (Hrc : reading (call_now c) = true).
  { apply Forall_app in Hr as [_ Hc]. now inversion Hc. }
  split.
  - rewrite agent_num_ordinal by assumption. unfold ordinal.
    destruct (registration_at calls c [] Hnd) as [-> ->].
    rewrite count_app, count_cons, flt_irrefl.
    change (count _ []) with 0.
    assert (Hsplit : forall l : list call,
              Forall (fun c' => reading (call_now c') = true) l ->
              count (fun c' => negb (flt (call_now c) (call_now c'))) l
              = count (fun c' => flt (call_now c') (call_now c)) l
                + count (fun c' => same_time (call_now c') (call_now c)) l).
    { induction 1 as [|x l Hx Hl IH]; [reflexivity|]. rewrite !count_cons, IH.
      unfold same_time. destruct (flt (call_now x) (call_now c)) eqn:E1.
      - rewrite (flt_asym _ _ Hx Hrc E1). cbn [negb andb]. lia.
      - destruct (flt (call_now c) (call_now x)); cbn [negb andb]; lia. }
    rewrite (Hsplit calls Hr'). lia.
  - intros c' Hc'. rewrite !agent_num_ordinal by assumption. unfold ordinal.
    apply in_split in Hc' as (before & after & ->).
    destruct (registration_at before c' after Hnd') as [-> ->].
    rewrite <- app_assoc in Hnd |- *. cbn [app] in Hnd |- *.
    destruct (registration_at before c' (after ++ [c]) Hnd) as [-> ->].
    repeat (rewrite count_app || rewrite count_cons). cbv beta.
    change (count _ []) with 0.
    destruct (flt (call_now c) (call_now c')), (flt (call_now c') (call_now c')); lia.
Qed.

(** X6: with distinct ids, an agent whose parent was registered before it is
    indented two spaces more than the parent; an agent whose parent is
    registered only later, or never, is not indented at all. *)
Theorem child_indent_follows_parent (before after : list call) (c : call) (p : string) :
  NoDup (map call_id (before ++ c :: after)) ->
  call_parent c = Some p -> p <> "" ->
  let tracker := run (before ++ c :: after) init in
  (In p (map call_id before) ->
   get_indent tracker (call_id c) = "  " ++ get_indent tracker p) /\
  (~ In p (map call_id before) -> get_indent tracker (call_id c) = "").
Proof.
  intros Hnd Hp Hne tracker.
  assert (Hc : get (agents tracker) (call_id c)
               = Some {| parentId := Some p; startTime := call_now c;
                         depth := depth_at (run before init) (Some p) |}).
  { subst tracker. rewrite run_app. rewrite <- Hp.
    change (run (c :: after) (run before init))
      with (run after (start_agent (run before init) (call_id c) (call_parent c)
                         (call_now c))).
    apply record_kept.
    rewrite map_app in Hnd. cbn [map] in Hnd. apply NoDup_remove_2 in Hnd.
    rewrite Forall_forall. intros c' Hc' E. apply Hnd.
    apply in_or_app. right. rewrite <- E. now apply in_map. }
  assert (Hg : given (Some p) = true).
  { cbn [given]. destruct (String.eqb_spec p ""); [contradiction|reflexivity]. }
  unfold get_indent. rewrite Hc. cbn [depth]. unfold depth_at. rewrite Hg.
  split.
  - intros Hin.
    assert (Hsame : get (agents tracker) p = get (agents (run before init)) p).
    { subst tracker. rewrite run_app. apply get_run_other.
      rewrite map_app in Hnd. cbn [map] in Hnd.
      rewrite Forall_forall. intros c' Hc' E.
      assert (Hin' : In p (map call_id (c :: after))) by (rewrite <- E; now apply in_map).
      clear - Hnd Hin Hin'. induction before as [|b before IH]; [destruct Hin|].
      cbn [map app] in Hnd. inversion Hnd as [|? ? Hb Hnd']; subst.
      destruct Hin as [<-|Hin]; [|auto].
      apply Hb. apply in_or_app. right. exact Hin'. }
    rewrite Hsame.
    destruct (get (agents (run before init)) p) as [r|] eqn:E; [reflexivity|].
    exfalso. apply get_none_keys in E. apply E.
    apply mem_keys. rewrite mem_run. apply orb_true_intro. left.
    apply in_map_iff in Hin as (b & <- & Hb).
    apply existsb_exists. exists b. split; [assumption|apply String.eqb_refl].
  - intros Hnot.
    replace (get (agents (run before init)) p) with (@None agent); [reflexivity|].
    symmetry. destruct (get (agents (run before init)) p) eqn:E; [|reflexivity].
    exfalso. apply Hnot.
    assert (M : mem (agents (run before init)) p = true) by (unfold mem; now rewrite E).
    rewrite mem_run in M. cbn [init agents mem get] in M. rewrite orb_false_r in M.
    apply existsb_exists in M as (b & Hb & Eb). apply String.eqb_eq in Eb.
    rewrite <- Eb. now apply in_map.
Qed.

End Ordinals.

(* ===================================================================== *)
(** * More on durations and timestamps *)
(* ===================================================================== *)

Section MoreDurations.
Context {R : Runtime}.

Lemma int_truediv_raises a b e : int_truediv a b = Raise e -> e = OverflowError.
Proof.
  unfold int_truediv. destruct (is_infinity _); [now intros [= <-]|discriminate].
Qed.

(** X7: [format_duration] raises TypeError exactly on a value that is not
    a number (null, a string, a list, a dict); on a value that a message
    can hold, whose ints are within the conversion limit, it raises nothing
    else but OverflowError, and that only on an int of [2^1024] or more:
    floats, bools and every smaller int, the negative ones included, are
    rendered. *)
Theorem format_duration_failures (v : json) :
  (format_duration v = Raise TypeError <->
   match v with
   | JNull | JStr _ | JList _ | JDict _ => True
   | JBool _ | JInt _ | JFloat _ => False
   end) /\
  (loadable v = true ->
   forall e, format_duration v = Raise e ->
     e = TypeError \/
     (e = OverflowError /\ exists z, v = JInt z /\ 2 ^ 1024 <= z)).
Proof.
  enough (H : (format_duration v = Raise TypeError <->
               match v with
               | JNull | JStr _ | JList _ | JDict _ => True
               | JBool _ | JInt _ | JFloat _ => False
               end) /\
              (forall e, format_duration v = Raise e ->
                 e = TypeError \/
                 (e = OverflowError /\ exists z, v = JInt z /\ 2 ^ 1024 <= z)))
    by (split; [apply H|intros _; apply H]).
  destruct v as [|b|z|f|s|l|d];
    try (split; [split; [trivial|reflexivity]|intros e [= <-]; now left]).
  - (* bool *)
    split; [split; [|contradiction]|]; destruct b; cbn; discriminate.
  - (* int *)
    assert (Hz : forall e, format_duration (JInt z) = Raise e ->
                   e = OverflowError /\ 2 ^ 1024 <= z).
    { intros e He. destruct (Z_lt_le_dec z (2 ^ 1024)) as [Hlt|Hge].
      - destruct (format_duration_total (JInt z)) as [text Ht];
          [now apply Z.ltb_lt|congruence].
      - split; [|assumption]. rewrite format_duration_m in He by lia.
        destruct (int_truediv z 60000) as [x|e'] eqn:E; [discriminate|].
        cbn [bind] in He. injection He as <-. eapply int_truediv_raises; eassumption. }
    split.
    + split; [|contradiction]. intros H. destruct (Hz _ H). discriminate.
    + intros e He. right. destruct (Hz e He). eauto.
  - (* float *)
    assert (Hf : exists text, format_duration (JFloat f) = Ok text)
      by (now apply format_duration_total).
    destruct Hf as [text Ht]. rewrite Ht.
    split; [split; [discriminate|contradiction]|discriminate].
Qed.

(** X8: between 1000 and 60000 milliseconds the seconds shown are the
    quotient by 1000 rounded to the nearest tenth, and from 60000 to below
    [2^46] the minutes shown are the quotient by 60000 rounded to the
    nearest tenth, for every value that is not exactly half-way between two
    tenths. *)
Theorem format_duration_rounds_to_nearest (ms : Z) :
  (1000 <= ms < 60000 -> ms mod 100 <> 50 ->
   format_duration (JInt ms) = Ok (one_decimal ((ms + 50) / 100) ++ "s")) /\
  (60000 <= ms < 2 ^ 46 -> ms mod 6000 <> 3000 ->
   format_duration (JInt ms) = Ok (one_decimal ((ms + 3000) / 6000) ++ "m")).
Proof.
  split; intros Hms Htie.
  - rewrite format_duration_s by assumption.
    destruct (int_truediv_tenths ms 1000 ltac:(lia) eq_refl ltac:(lia))
      as (m & e & -> & Hn).
    cbn [bind fmt1].
    set (n := tenths m e) in *. clearbody n.
    replace ((ms + 50) / 100) with n; [reflexivity|].
    apply Z.div_unique with (ms + 50 - 100 * n); [|lia].
    left. pose proof (Z.div_mod ms 100 ltac:(lia)).
    pose proof (Z.mod_pos_bound ms 100 ltac:(lia)). lia.
  - rewrite format_duration_m by lia.
    destruct (int_truediv_tenths ms 60000 ltac:(lia) eq_refl ltac:(lia))
      as (m & e & -> & Hn).
    cbn [bind fmt1].
    set (n := tenths m e) in *. clearbody n.
    replace ((ms + 3000) / 6000) with n; [reflexivity|].
    apply Z.div_unique with (ms + 3000 - 6000 * n); [|lia].
    left. pose proof (Z.div_mod ms 6000 ltac:(lia)).
    pose proof (Z.mod_pos_bound ms 6000 ltac:(lia)). lia.
Qed.

End MoreDurations.

(* ===================================================================== *)
(** * More on the renderer *)
(* ===================================================================== *)

Section MoreRendering.
Import AgentTracker.
Context {R : Runtime}.
Variable C : Colors.

(** X9: the timestamp is formatted before anything else: when that raises,
    [format_event] raises the same exception and the tracker is as it was,
    so an agent-started event with such a timestamp registers nothing; a
    timestamp that is present and is null, a string, a list or a dict
    raises TypeError. *)
Theorem bad_timestamp_stops_the_event (now now' : float) (ev : event) (tracker : t) :
  (forall e, format_timestamp (event_timestamp now ev) = Raise e ->
     format_event C now now' ev tracker = (tracker, Raised e)) /\
  (forall v, get ev "timestamp" = Some v ->
     match v with
     | JNull | JStr _ | JList _ | JDict _ => True
     | JBool _ | JInt _ | JFloat _ => False
     end ->
     format_event C now now' ev tracker = (tracker, Raised TypeError)).
Proof.
  assert (H : forall e, format_timestamp (event_timestamp now ev) = Raise e ->
                format_event C now now' ev tracker = (tracker, Raised e)).
  { intros e He. unfold format_event. now rewrite He. }
  split; [exact H|].
  intros v Hv Hbad. apply H. unfold event_timestamp, get_default. rewrite Hv.
  destruct v; try contradiction; reflexivity.
Qed.

(** X10: registration comes before the lines are built: when an
    agent-started event names an agent and building its lines raises (the
    maximum duration is not a number, or is too large), the exception
    leaves [format_event] with the agent registered. *)
Theorem registration_survives_failed_rendering (now now' : float) (ev : event)
    (tracker : t) (a ts : string) (e : exn) :
  is_type (event_type ev) "agent_loop_started" = true ->
  field ev "agentId" = JStr a -> a <> "" ->
  string_or_absent (field ev "parentAgentId") = true ->
  format_timestamp (event_timestamp now ev) = Ok ts ->
  format_duration (get_default ev "maxDurationMs" (JInt 0)) = Raise e ->
  format_event C now now' ev tracker =
    (start_agent tracker a (parent_arg (as_key (field ev "parentAgentId"))) now',
     Raised e).
Proof.
  intros Ht Ha Hne Hp Hts Hmd. unfold format_event. rewrite Hts, Ha.
  unfold agent_context. rewrite Ht. cbn [truthy as_key andb].
  destruct (String.eqb_spec a ""); [contradiction|]. cbn [negb].
  apply is_type_true in Ht. rewrite Ht.
  unfold render. cbn [is_type String.eqb Ascii.eqb Bool.eqb]. rewrite Hmd.
  unfold string_or_absent in Hp.
  destruct (as_key (field ev "parentAgentId")); try discriminate; reflexivity.
Qed.

(** X11: the events of type ready, error and server:shutdown are rendered
    without prefix and without indentation, whatever agent they name and
    whatever the tracker holds, and leave the tracker as it is. *)
Theorem events_without_agent_context (now now' : float) (ev : event) (tracker : t)
    (ts : string) :
  string_or_absent (field ev "agentId") = true ->
  format_timestamp (event_timestamp now ev) = Ok ts ->
  (is_type (event_type ev) "ready" = true ->
   format_event C now now' ev tracker =
     (tracker, Done (OKCYAN C ++ "[" ++ ts ++ "] "
                     ++ py_str (get_default ev "message" (JStr "Ready")) ++ ENDC C))) /\
  (is_type (event_type ev) "error" = true ->
   format_event C now now' ev tracker =
     (tracker,
      Done (join newline
        [ FAIL C ++ BOLD C ++ "[" ++ ts ++ "] ERROR: "
            ++ py_str (get_default ev "errorType" (JStr "unknown")) ++ ENDC C;
          "  " ++ py_str (get_default ev "errorMessage" (JStr "No message")) ]))) /\
  (is_type (event_type ev) "server:shutdown" = true ->
   format_event C now now' ev tracker =
     (tracker, Done (WARNING C ++ "[" ++ ts ++ "] Server shutting down" ++ ENDC C))).
Proof.
  intros Hid Hts.
  assert (Hctx : forall name, (name =? "agent_loop_started")%string = false ->
            is_type (event_type ev) name = true ->
            exists p i,
              agent_context (event_type ev) (field ev "agentId")
                (field ev "parentAgentId") now' tracker = (tracker, Done (p, i))).
  { intros name Hn Ht. apply is_type_true in Ht. rewrite Ht.
    unfold agent_context. cbn [is_type]. rewrite Hn. cbn [andb].
    unfold string_or_absent in Hid.
    destruct (truthy (field ev "agentId")); [|eauto].
    destruct (as_key (field ev "agentId")); try discriminate; eauto. }
  repeat split; intros Ht; unfold format_event; rewrite Hts;
    (edestruct Hctx as (p & i & ->); [|exact Ht|]; [reflexivity|]);
    apply is_type_true in Ht; rewrite Ht; reflexivity.
Qed.

Lemma join_features_strings (features : list string) :
  join_features (JList (map JStr features)) = Ok (join ", " features).
Proof.
  cbn [join_features].
  enough (H : forall acc,
            (fix strs (l : list json) (acc : list string) : result string :=
               match l with
               | [] => Ok (join ", " (rev acc))
               | JStr s :: rest => strs rest (s :: acc)
               | _ => Raise TypeError
               end) (map JStr features) acc
            = Ok (join ", " (rev acc ++ features)%list))
    by (now rewrite H).
  induction features as [|s features IH]; intros acc; cbn [map].
  - now rewrite app_nil_r.
  - rewrite IH. cbn [rev]. now rewrite <- app_assoc.
Qed.

(** X15: a connected event shows the banner and the client id; a server
    info that is absent or empty adds nothing; one that is a non-empty dict
    whose features are strings adds them on a line, separated by commas;
    one that holds something else than a dict (a non-empty string or list,
    a number, true) makes [format_event] raise AttributeError. *)
Theorem connected_event_server_info (now now' : float) (ev : event) (tracker : t)
    (ts : string) :
  is_type (event_type ev) "connected" = true ->
  string_or_absent (field ev "agentId") = true ->
  format_timestamp (event_timestamp now ev) = Ok ts ->
  let server_info := get_default ev "serverInfo" (JDict []) in
  let banner :=
    [ OKGREEN C ++ "[" ++ ts ++ "] Connected to Lynkr progress server" ++ ENDC C;
      "  Client ID: " ++ py_str (field ev "clientId") ] in
  (truthy server_info = false ->
   format_event C now now' ev tracker = (tracker, Done (join newline banner))) /\
  (forall d features,
     server_info = JDict d -> d <> [] ->
     get_default d "features" (JList []) = JList (map JStr features) ->
     format_event C now now' ev tracker =
       (tracker,
        Done (join newline
                (List.app banner [ "  Features: " ++ join ", " features ])))) /\
  (truthy server_info = true -> (forall d, server_info <> JDict d) ->
   format_event C now now' ev tracker = (tracker, Raised AttributeError)).
Proof.
  intros Ht Hid Hts server_info banner.
  assert (Hctx : exists p i,
            agent_context (event_type ev) (field ev "agentId")
              (field ev "parentAgentId") now' tracker = (tracker, Done (p, i))).
  { apply is_type_true in Ht. rewrite Ht.
    unfold agent_context. cbn [is_type String.eqb Ascii.eqb Bool.eqb andb].
    unfold string_or_absent in Hid.
    destruct (truthy (field ev "agentId")); [|eauto].
    destruct (as_key (field ev "agentId")); try discriminate; eauto. }
  destruct Hctx as (p & i & Hctx).
  assert (Hfe : format_event C now now' ev tracker
                = (tracker, finish (render C ev (JStr "connected") ts i p))).
  { unfold format_event. rewrite Hts, Hctx. apply is_type_true in Ht. now rewrite Ht. }
  rewrite Hfe. unfold render. cbn [is_type String.eqb Ascii.eqb Bool.eqb].
  fold server_info. fold banner. clearbody server_info.
  split; [|split].
  - intros ->. reflexivity.
  - intros d features -> Hd Hf. destruct d; [contradiction|].
    cbn [truthy]. rewrite Hf, join_features_strings. reflexivity.
  - intros Htr Hnd. rewrite Htr.
    destruct server_info; try reflexivity. now destruct (Hnd d).
Qed.

End MoreRendering.

(* ===================================================================== *)
(** * The receive loop *)
(* ===================================================================== *)

Section LoopFacts.
Import AgentTracker Lineage.
Context {R : Runtime}.
Variable C : Colors.
Variable loads : string -> decoded.

(** X12: a stream in two parts: when the loop gets through the first part,
    it goes on with the second from the tracker the first has left, and
    prints what the first printed followed by what the second prints; when
    it dies in the first part, the second is not looked at. *)
Theorem receive_in_two_parts (first second : list arrival) (tracker : t) :
  receive C loads (first ++ second) tracker =
  match receive C loads first tracker with
  | (tracker', blocks, Closed) =>
      let '(tracker'', blocks', e) := receive C loads second tracker' in
      (tracker'', (blocks ++ blocks')%list, e)
  | stopped => stopped
  end.
Proof.
  revert tracker. induction first as [|a first IH]; intros tracker; cbn [app receive].
  - now destruct (receive C loads second tracker) as [[? ?] ?].
  - destruct (loads (message a)) as [[| | | | | |ev]|err|e]; try reflexivity.
    + destruct (format_event C (now_render a) (now_start a) ev tracker)
        as [tracker' [text|e|]]; try reflexivity.
      rewrite IH. destruct (receive C loads first tracker') as [[t1 b1] [|e|]];
        try reflexivity.
      now destruct (receive C loads second t1) as [[? ?] ?].
    + rewrite IH. destruct (receive C loads first tracker) as [[t1 b1] [|e|]];
        try reflexivity.
      now destruct (receive C loads second t1) as [[? ?] ?].
Qed.

(** X13: messages that do not parse change nothing but the output: without
    them the loop ends the same way with the same tracker, and shows the
    same events in the same order. *)
Theorem unparsed_messages_change_nothing (arrivals : list arrival) (tracker : t) :
  let '(tracker', blocks, e) := receive C loads arrivals tracker in
  receive C loads (filter (parses loads) arrivals) tracker
  = (tracker', filter is_shown blocks, e).
Proof.
  revert tracker. induction arrivals as [|a arrivals IH]; intros tracker;
    [reflexivity|].
  cbn [receive filter]. unfold parses at 1.
  destruct (loads (message a)) as [v|err|e] eqn:E.
  - cbn [receive]. rewrite E. destruct v as [| | | | | |ev]; try reflexivity.
    destruct (format_event C (now_render a) (now_start a) ev tracker)
      as [tracker' [text|e|]]; try reflexivity.
    specialize (IH tracker').
    destruct (receive C loads arrivals tracker') as [[t1 b1] e1]. now rewrite IH.
  - specialize (IH tracker).
    destruct (receive C loads arrivals tracker) as [[t1 b1] e1]. exact IH.
  - cbn [receive]. now rewrite E.
Qed.

Lemma format_event_done now now' ev tracker tracker' text :
  format_event C now now' ev tracker = (tracker', Done text) ->
  tracker' =
  match field ev "agentId" with
  | JStr id =>
      if is_type (event_type ev) "agent_loop_started" && negb (id =? "")%string
      then start_agent tracker id (parent_arg (as_key (field ev "parentAgentId"))) now'
      else tracker
  | _ => tracker
  end.
Proof.
  unfold format_event.
  destruct (format_timestamp (event_timestamp now ev)); [|discriminate].
  unfold agent_context.
  set (v := field ev "agentId"). set (parent := field ev "parentAgentId").
  assert (Hrest : (forall id, v <> JStr id) ->
            match v with
            | JStr id =>
                if is_type (event_type ev) "agent_loop_started" && negb (id =? "")%string
                then start_agent tracker id (parent_arg (as_key parent)) now'
                else tracker
            | _ => tracker
            end = tracker).
  { intros H. destruct v; try reflexivity. now destruct (H s). }
  destruct (is_type (event_type ev) "agent_loop_started") eqn:Et; cbn [andb].
  - destruct (truthy v) eqn:Tv.
    + destruct (as_key parent) eqn:Kp; destruct (as_key v) as [|id| |] eqn:Kv;
        try discriminate; intros [= <- _];
        try (symmetry; apply Hrest; intros id' ->; discriminate).
      all: apply as_key_Key in Kv; rewrite Kv in Tv |- *;
        cbn [truthy] in Tv; now rewrite Tv.
    + intros [= <- _]. destruct v; try reflexivity.
      cbn [truthy] in Tv. now rewrite Tv.
  - destruct (truthy v); [destruct (as_key v); try discriminate|];
      intros [= <- _]; symmetry; now destruct v.
Qed.

(** X14: when the loop gets through a stream, the tracker it leaves is the
    one the registrations of the stream, in their order, make of the
    tracker it started with: rendering adds nothing to the lineage and
    loses nothing of it. *)
Theorem receive_registers_the_stream (arrivals : list arrival) (tracker : t) :
  snd (receive C loads arrivals tracker) = Closed ->
  fst (fst (receive C loads arrivals tracker))
  = run (registrations loads arrivals) tracker.
Proof.
  revert tracker. induction arrivals as [|a arrivals IH]; intros tracker;
    [reflexivity|].
  cbn [receive registrations]. unfold registration_of.
  destruct (loads (message a)) as [v|err|e] eqn:E; [| |discriminate].
  - destruct v as [| | | | | |ev]; try discriminate.
    destruct (format_event C (now_render a) (now_start a) ev tracker)
      as [tracker' [text|e|]] eqn:Ef; try discriminate.
    apply format_event_done in Ef.
    specialize (IH tracker').
    destruct (receive C loads arrivals tracker') as [[t1 b1] e1].
    cbn [fst snd] in *. intros He. rewrite (IH He), Ef.
    destruct (field ev "agentId"); try reflexivity.
    destruct (is_type (event_type ev) "agent_loop_started" && negb (s =? "")%string);
      reflexivity.
  - specialize (IH tracker).
    destruct (receive C loads arrivals tracker) as [[t1 b1] e1]. exact IH.
Qed.

End LoopFacts.

(* ===================================================================== *)
(** * The further properties on the sample data *)
(* ===================================================================== *)

Section OnSampleStream.
Import AgentTracker Lineage Table Sample SampleStream.

Example sample_children :
  children (run (calls ++ calls) init) "A" = Some ["B"; "B"] /\
  children (run calls init) "ghost" = Some ["C"] /\
  children (run calls init) "B" = None.
Proof. repeat split. Qed.

Example sample_stream_output :
  stdout no_color loads stream init
  = [ "[22:13:20] [Agent #1] Started" ++ newline ++
      "  Model: m1" ++ newline ++
      "  Provider: None" ++ newline ++
      "  Max steps: 8" ++ newline ++
      "  Max duration: 2.1m";
      "";
      "[ERROR] Failed to parse message: Expecting value: line 1 column 1 (char 0)";
      "  Raw message: not json";
      "  [22:13:20] [Agent #2 → #1] Started" ++ newline ++
      "    Model: None" ++ newline ++
      "    Provider: None" ++ newline ++
      "    Max steps: None" ++ newline ++
      "    Max duration: 0ms";
      "";
      "  [22:13:20] [Agent #2 → #1] Step 1/8 (12%)";
      "" ].
Proof. vm_compute. reflexivity. Qed.

Example sample_stream_dies :
  receive no_color loads (arrive "a list" 1700000000 :: stream) init
  = (init, [], Died AttributeError).
Proof. reflexivity. Qed.

Lemma agent_numbers_are_one_to_n_witness :
  1 <= _get_agent_num (run calls init) "C" <= population (run calls init).
Proof.
  refine (proj1 (agent_numbers_are_one_to_n calls) "C" _). reflexivity.
Defined.

Lemma numbers_follow_registration_order_witness :
  _get_agent_num (run steady_calls init) "C" = 3.
Proof.
  apply (numbers_follow_registration_order (firstn 2 steady_calls) [] (nth 2 steady_calls early_call)).
  - repeat constructor; cbn; intuition discriminate.
  - repeat constructor.
  - repeat constructor.
Defined.

Lemma later_registration_shifts_numbers_witness :
  _get_agent_num (run (steady_calls ++ [early_call]) init) "D" = 1 /\
  forall c', In c' steady_calls ->
    _get_agent_num (run (steady_calls ++ [early_call]) init) (call_id c')
    = _get_agent_num (run steady_calls init) (call_id c')
      + (if flt (call_now early_call) (call_now c') then 1 else 0).
Proof.
  apply (later_registration_shifts_numbers steady_calls early_call).
  - repeat constructor; cbn; intuition discriminate.
  - repeat constructor.
Defined.

Lemma child_indent_follows_parent_witness :
  get_indent (run calls init) "B" = "  " ++ get_indent (run calls init) "A".
Proof.
  refine (proj1 (child_indent_follows_parent (firstn 1 calls) (skipn 2 calls)
                   (nth 1 calls early_call) "A" _ eq_refl _) _).
  - repeat constructor; cbn; intuition discriminate.
  - discriminate.
  - now left.
Defined.

Lemma format_duration_failures_witness :
  format_duration (JStr "soon") = Raise TypeError /\
  (OverflowError = TypeError \/
   (OverflowError = OverflowError /\
    exists z, JInt (60000 * 2 ^ 1024) = JInt z /\ 2 ^ 1024 <= z)).
Proof.
  split.
  - exact (proj2 (proj1 (format_duration_failures (JStr "soon"))) I).
  - apply (proj2 (format_duration_failures (JInt (60000 * 2 ^ 1024)))).
    + vm_compute. reflexivity.
    + vm_compute. reflexivity.
Defined.

Lemma format_duration_rounds_to_nearest_witness :
  format_duration (JInt 1234) = Ok "1.2s".
Proof.
  refine (proj1 (format_duration_rounds_to_nearest 1234) _ _).
  - lia.
  - discriminate.
Defined.

Lemma bad_timestamp_stops_the_event_witness :
  format_event no_color (at_second 1700000000) (at_second 1700000000) undated init
  = (init, Raised TypeError).
Proof.
  refine (proj2 (bad_timestamp_stops_the_event no_color _ _ undated init)
            (JStr "soon") eq_refl I).
Defined.

Lemma registration_survives_failed_rendering_witness :
  format_event no_color (at_second 1700000000) (at_second 1700000000) unbounded init
  = (start_agent init "A" None (at_second 1700000000), Raised TypeError).
Proof.
  apply (registration_survives_failed_rendering no_color (at_second 1700000000)
           (at_second 1700000000) unbounded init "A" "22:13:20" TypeError);
    try reflexivity. discriminate.
Defined.

Lemma events_without_agent_context_witness :
  format_event no_color (at_second 1700000000) (at_second 1700000000) failure
    (run calls init)
  = (run calls init,
     Done (join newline [ "[22:13:20] ERROR: timeout"; "  No message" ])).
Proof.
  refine (proj1 (proj2 (events_without_agent_context no_color (at_second 1700000000)
                          (at_second 1700000000) failure (run calls init)
                          "22:13:20" eq_refl eq_refl)) eq_refl).
Defined.

Lemma connected_event_server_info_witness :
  format_event no_color (at_second 1700000000) (at_second 1700000000) hello init
  = (init,
     Done (join newline
       [ "[22:13:20] Connected to Lynkr progress server"; "  Client ID: c1";
         "  Features: progress, agents" ])).
Proof.
  refine (proj1 (proj2 (connected_event_server_info no_color (at_second 1700000000)
                          (at_second 1700000000) hello init "22:13:20"
                          eq_refl eq_refl eq_refl))
            [ ("features", JList [JStr "progress"; JStr "agents"]) ]
            [ "progress"; "agents" ] eq_refl _ eq_refl).
  discriminate.
Defined.

Lemma receive_registers_the_stream_witness :
  fst (fst (receive no_color loads stream init))
  = run (registrations loads stream) init.
Proof. apply receive_registers_the_stream. reflexivity. Defined.

End OnSampleStream.
